(** * Workspace Manager: live statistics broadcast and session gate

    A shallow embedding of the Express/WebSocket application ([app.js] in its
    three variants, [middleware/auth.js], [routes/api/projects.js] and the
    two Mongoose schemas) together with the properties of its statistics
    aggregator, broadcast coordinator and session gate. *)

From Stdlib Require Import ZArith QArith Qround Qabs Qpower Lia Lqa.
From Stdlib Require Import List String Bool.
From Corelib Require SpecFloat.
Import ListNotations.

Set Implicit Arguments.

(* ================================================================== *)
(** * JavaScript numbers

    [computeStats] evaluates [Math.round((completed / tasks.length) * 100)]
    on IEEE-754 binary64 values.  A finite double is a rational, so the
    arithmetic is modelled on [Q]: each operation returns the exact result
    rounded to the nearest number with a 53 bit significand, ties to the
    even significand.  Operands here are array lengths (below [2^32]) and
    the constant [100], so neither the subnormal range, nor overflow, nor
    [NaN] is reachable and the exponent is left unbounded. *)

Module JsNumber.
Local Open Scope Q_scope.

(** The integer nearest to [x]; halfway cases go to the even neighbour. *)
Definition nearest_even (x : Q) : Z :=
  let f := Qfloor x in
  match Qcompare (x - inject_Z f) (1 # 2) with
  | Lt => f
  | Gt => (f + 1)%Z
  | Eq => if Z.even f then f else (f + 1)%Z
  end.

(** [ilog2 x] is the binary exponent of a positive [x]:
    [2 ^ ilog2 x <= x < 2 ^ (ilog2 x + 1)]. *)
Definition ilog2 (x : Q) : Z :=
  let l := (Z.log2 (Qnum x) - Z.log2 (Zpos (Qden x)))%Z in
  if Qle_bool (2 ^ l) x then l else (l - 1)%Z.

(** Rounding of a positive rational to 53 significant bits. *)
Definition round53 (x : Q) : Q :=
  let e := (ilog2 x - 52)%Z in
  inject_Z (nearest_even (x * 2 ^ (- e))) * 2 ^ e.

(** Round to nearest, ties to even, on all rationals. *)
Definition RN (x : Q) : Q :=
  match Qcompare x 0 with
  | Eq => 0
  | Gt => round53 x
  | Lt => - round53 (- x)
  end.

(** The operators [/] and [*] on doubles. *)
Definition div (x y : Q) : Q := RN (x / y).
Definition mul (x y : Q) : Q := RN (x * y).

(** [Math.round]: the nearest integer, halfway cases towards [+infinity]
    (ECMA-262, 21.3.2.28); computed exactly, not through an addition of
    doubles. *)
Definition Math_round (x : Q) : Z := Qfloor (x + (1 # 2)).

(** Array lengths and counts enter the arithmetic exactly. *)
Definition of_Z (n : Z) : Q := inject_Z n.

(** The same two operations read off the IEEE-754 specification of the
    standard library ([SpecFloat], precision 53, [emax] 1024), used below
    to cross-check [div] and [mul] on concrete operands. *)
Module Ieee.
Import SpecFloat.
Definition b64_of_Z (n : Z) : spec_float := binary_normalize 53 1024 n 0 false.
Definition b64_div := SFdiv 53 1024.
Definition b64_mul := SFmul 53 1024.
Definition to_Q (f : spec_float) : Q :=
  match f with
  | S754_finite s m e =>
      (if s then - inject_Z (Zpos m) else inject_Z (Zpos m)) * 2 ^ e
  | _ => 0
  end.
Definition percent (c t : Z) : spec_float :=
  b64_mul (b64_div (b64_of_Z c) (b64_of_Z t)) (b64_of_Z 100).
End Ieee.

(** [(completed / total) * 100] *)
Definition percent (c t : Z) : Q := mul (div (of_Z c) (of_Z t)) (of_Z 100).

(** Half an ulp, relative: [2 ^ -53]. *)
Definition u53 : Q := 1 # 9007199254740992.

End JsNumber.


(* ================================================================== *)
(** * The record store

    [models/Project.js] and [models/Task.js]: two Mongoose collections.
    Both schemas set [timestamps: true], so every document carries
    [createdAt] and [updatedAt].  A collection is the list of its
    documents in insertion order, which is the order [find()] returns. *)

Definition ObjectId := N.

(** A route parameter after Mongoose's cast to [ObjectId]: either an
    identifier or a string that does not denote one ([CastError]). *)
Inductive IdParam :=
| Oid (i : ObjectId)
| NotAnId (raw : string).

Record ProjectDoc := mkProject {
  p_id : ObjectId;
  p_title : string;                 (* title: { type: String, required: true } *)
  p_description : option string;    (* description: String *)
  p_progress : option Q;            (* progress: { type: Number, default: 0 } *)
  p_createdAt : Z;
  p_updatedAt : Z
}.

Record TaskDoc := mkTask {
  t_id : ObjectId;
  t_title : string;                 (* title: { type: String, required: true } *)
  t_completed : bool;               (* completed: { type: Boolean, default: false } *)
  t_projectId : option ObjectId;    (* projectId: ObjectId, ref: "Project" *)
  t_createdAt : Z;
  t_updatedAt : Z
}.

Record Db := mkDb {
  projects : list ProjectDoc;
  tasks : list TaskDoc;
  nextId : ObjectId                 (* source of fresh [_id] values *)
}.

Definition emptyDb : Db := mkDb [] [] 1%N.

(** JavaScript truthiness of an optional string: [undefined] and [""]
    are falsy.  The [required] validator of a [String] path rejects
    exactly the same values. *)
Definition truthy (v : option string) : bool :=
  match v with
  | Some s => negb (String.eqb s EmptyString)
  | None => false
  end.

(** [a || b] on optional strings. *)
Definition or_else (a b : option string) : option string :=
  if truthy a then a else b.

Module Store.

(** [Model.findById(id)] once the identifier has been cast. *)
Definition findProject (i : ObjectId) (d : Db) : option ProjectDoc :=
  find (fun p => N.eqb (p_id p) i) (projects d).

Definition findTask (i : ObjectId) (d : Db) : option TaskDoc :=
  find (fun t => N.eqb (t_id t) i) (tasks d).

(** [new Project({title, description, progress}).save()] with a title
    that passed validation: a fresh [_id], both timestamps set to the
    clock. *)
Definition insertProject (now : Z) (title : string)
    (description : option string) (progress : option Q) (d : Db)
  : ProjectDoc * Db :=
  let p := mkProject (nextId d) title description progress now now in
  (p, mkDb (projects d ++ [p]) (tasks d) (N.succ (nextId d))).

(** [new Task({title, projectId}).save()]; [completed] takes its
    default [false]. *)
Definition insertTask (now : Z) (title : string)
    (projectId : option ObjectId) (d : Db) : TaskDoc * Db :=
  let t := mkTask (nextId d) title false projectId now now in
  (t, mkDb (projects d) (tasks d ++ [t]) (N.succ (nextId d))).

(** [task.save()] on a loaded and modified document: the stored
    document with that [_id] is replaced (one [updateOne] by [_id]). *)
Fixpoint replaceTask (t : TaskDoc) (l : list TaskDoc) : list TaskDoc :=
  match l with
  | [] => []
  | x :: r => if N.eqb (t_id x) (t_id t) then t :: r else x :: replaceTask t r
  end.

Definition saveTask (t : TaskDoc) (d : Db) : Db :=
  mkDb (projects d) (replaceTask t (tasks d)) (nextId d).

End Store.

(* ================================================================== *)
(** * Stats Aggregator *)

(** One entry of [projects] in the snapshot. *)
Record ProjectSummary := mkSummary {
  id : ObjectId;
  name : string;
  description : option string;
  progress : Q
}.

Record StatsSnapshot := mkStats {
  totalProjects : Z;
  totalTasks : Z;
  overallCompletion : Z;
  summaries : list ProjectSummary   (* the [projects] key *)
}.

(** [p.progress || 0]: a missing, null or zero progress reads [0]. *)
Definition progress_or_0 (v : option Q) : Q :=
  match v with
  | Some q => if Qeq_bool q 0 then 0%Q else q
  | None => 0%Q
  end.

Definition summarize (p : ProjectDoc) : ProjectSummary :=
  mkSummary (p_id p) (p_title p) (p_description p) (progress_or_0 (p_progress p)).

Definition length_Z {A} (l : list A) : Z := Z.of_nat (List.length l).

(** [computeStats] applied to the result of [Project.find()] and
    [Task.find()]. *)
Definition statsOf (ps : list ProjectDoc) (ts : list TaskDoc) : StatsSnapshot :=
  let completed := length_Z (filter t_completed ts) in
  mkStats
    (length_Z ps)
    (length_Z ts)
    (if (length_Z ts =? 0)%Z then 0%Z
     else JsNumber.Math_round (JsNumber.percent completed (length_Z ts)))
    (map summarize ps).

Definition computeStats (d : Db) : StatsSnapshot :=
  statsOf (projects d) (tasks d).

(* ================================================================== *)
(** * Wire messages

    [JSON.stringify] is modelled up to the JSON value it prints: the keys
    in source order, a key whose value is [undefined] dropped. *)

Unset Elimination Schemes.
Inductive Json :=
| JNull
| JNum (q : Q)
| JStr (s : string)
| JOid (i : ObjectId)               (* an ObjectId prints as its hex string *)
| JArr (items : list Json)
| JObj (fields : list (string * Json)).
Set Elimination Schemes.

Definition optional_field (k : string) (v : option string) : list (string * Json) :=
  match v with
  | Some s => [(k, JStr s)]
  | None => []
  end.

Definition json_of_summary (x : ProjectSummary) : Json :=
  JObj ([("id", JOid (id x)); ("name", JStr (name x))]%string
        ++ optional_field "description" (description x)
        ++ [("progress"%string, JNum (progress x))]).

Definition json_of_stats (st : StatsSnapshot) : Json :=
  JObj [("totalProjects", JNum (inject_Z (totalProjects st)));
        ("totalTasks", JNum (inject_Z (totalTasks st)));
        ("overallCompletion", JNum (inject_Z (overallCompletion st)));
        ("projects", JArr (map json_of_summary (summaries st)))]%string.

(** [JSON.stringify({ type: "stats", data: stats })] *)
Definition stats_message (st : StatsSnapshot) : Json :=
  JObj [("type", JStr "stats"); ("data", json_of_stats st)]%string.

(** [JSON.stringify({ type: "info", message: greeting })]; the greeting is
    ["Connected"] or ["Connected to live updates"] depending on the
    variant of [app.js]. *)
Definition info_message (greeting : string) : Json :=
  JObj [("type", JStr "info"); ("message", JStr greeting)]%string.

(** The [type] field of a message. *)
Definition kind_of (m : Json) : option string :=
  match m with
  | JObj ((k, JStr v) :: _) => if String.eqb k "type" then Some v else None
  | _ => None
  end.

(* ================================================================== *)
(** * Connection registry and server state *)

(** A live connection of [wss.clients].  [readyState] follows the
    WebSocket constants: 0 CONNECTING, 1 OPEN, 2 CLOSING, 3 CLOSED. *)
Record Client := mkClient {
  cid : nat;
  readyState : Z
}.

Definition OPEN : Z := 1.
Definition CLOSING : Z := 2.
Definition CLOSED : Z := 3.

(** [c.readyState === 1] *)
Definition ready (c : Client) : bool := (readyState c =? 1)%Z.

(** Who issued a [send]: the connection handler or [broadcastStats]. *)
Inductive Origin := Handshake | Fanout.

(** What the server does that an observer can see, oldest first. *)
Inductive Event :=
| EBroadcast                                      (* a call of [broadcastStats] *)
| ESend (by_ : Origin) (to : nat) (msg : Json).   (* a call of [send] on a client *)

Record Server := mkServer {
  db : Db;
  clients : list Client;            (* [wss.clients], in insertion order *)
  log : list Event
}.

Definition with_db (d : Db) (s : Server) : Server :=
  mkServer d (clients s) (log s).

Definition emit (es : list Event) (s : Server) : Server :=
  mkServer (db s) (clients s) (log s ++ es).

(** The body of [wss.clients.forEach(c => { if (c.readyState === 1)
    c.send(msg); })]: one [send] per ready client, in registry order. *)
Definition fanout (msg : Json) (cs : list Client) : list Event :=
  map (fun c => ESend Fanout (cid c) msg) (filter ready cs).

(** [broadcastStats]: the snapshot is computed and encoded once, then
    offered to every registered client.  Nothing is caught and the
    registry is neither read for identities nor written. *)
Definition broadcastStats (s : Server) : Server :=
  let stats := computeStats (db s) in
  let msg := stats_message stats in
  emit (EBroadcast :: fanout msg (clients s)) s.

(** Number of calls of [broadcastStats] recorded in a log. *)
Definition broadcasts (l : list Event) : nat :=
  List.length (filter (fun e => match e with EBroadcast => true | _ => false end) l).

(** Messages handed to [send] on connection [c], oldest first. *)
Definition inbox (c : nat) (l : list Event) : list (Origin * Json) :=
  flat_map (fun e => match e with
                     | ESend o c' m => if Nat.eqb c' c then [(o, m)] else []
                     | EBroadcast => []
                     end) l.

(* ================================================================== *)
(** * Session Gate ([middleware/auth.js] and the [jwt.sign] calls)

    [jsonwebtoken] is modelled symbolically: an HS256 signature is the
    pair of the key and the payload it was computed over, so that two
    signatures agree exactly when key and payload agree.  Times are
    seconds since the epoch, as in the [iat] and [exp] claims. *)

Module Jwt.

(** The decoded payload, which [authMiddleware] stores in [req.user].
    The register and login routes of the first variant of [app.js] sign
    [{ id }] only; the other two variants sign [{ id, name, email }]. *)
Record Payload := mkPayload {
  sub_id : ObjectId;
  sub_name : option string;
  sub_email : option string;
  iat : Z;
  exp : Z
}.

Inductive Signature := HS256 (key : string) (signed : Payload).

(** The value of the [token] cookie: three well-formed segments, or
    anything else. *)
Inductive Token :=
| Jws (body : Payload) (sig : Signature)
| Malformed (raw : string).

Definition Payload_eq_dec (a b : Payload) : {a = b} + {a <> b}.
Proof.
  decide equality; try apply Z.eq_dec; try apply N.eq_dec;
    decide equality; apply string_dec.
Defined.

Definition Signature_eq_dec (a b : Signature) : {a = b} + {a <> b}.
Proof.
  decide equality; [apply Payload_eq_dec | apply string_dec].
Defined.

(** [expiresIn: "7d"] *)
Definition seven_days : Z := 7 * 24 * 60 * 60.

(** [jwt.sign(claims, secret, { expiresIn: "7d" })] at time [now]:
    [iat] is the clock, [exp] is [iat] plus the validity window. *)
Definition sign (sub : ObjectId) (nm em : option string)
    (secret : string) (now : Z) : Token :=
  let body := mkPayload sub nm em now (now + seven_days) in
  Jws body (HS256 secret body).

(** [jwt.verify(token, secret)] at time [now]; [None] stands for every
    exception it throws ([JsonWebTokenError], [TokenExpiredError]).
    The token is expired as soon as the clock reaches [exp]. *)
Definition verify (tok : Token) (secret : string) (now : Z) : option Payload :=
  match tok with
  | Malformed _ => None
  | Jws body sig =>
      if Signature_eq_dec sig (HS256 secret body) then
        if (exp body <=? now)%Z then None else Some body
      else None
  end.

End Jwt.

(** [Math.floor(Date.now() / 1000)]: the clock of the token library, from
    the millisecond clock that stamps documents. *)
Definition seconds (now_ms : Z) : Z := now_ms / 1000.

(** A registered user, as far as token issuance reads it. *)
Record User := mkUser {
  u_id : ObjectId;
  u_name : string;
  u_email : string
}.

(** The token set by [/register] and [/login] in the first variant of
    [app.js]: [jwt.sign({ id: user._id }, JWT_SECRET, { expiresIn: "7d" })]. *)
Definition issueToken_idOnly (secret : string) (now : Z) (u : User) : Jwt.Token :=
  Jwt.sign (u_id u) None None secret (seconds now).

(** The token set by [/register] and [/login] in the other two variants:
    [jwt.sign({ id: user._id, name: user.name, email: user.email },
    JWT_SECRET, { expiresIn: "7d" })]. *)
Definition issueToken (secret : string) (now : Z) (u : User) : Jwt.Token :=
  Jwt.sign (u_id u) (Some (u_name u)) (Some (u_email u)) secret (seconds now).

(* ================================================================== *)
(** * Requests, responses and middleware *)

Inductive Method := GET | POST.

(** The route a request path matches. *)
Inductive Route :=
| RHealth                           (* /health *)
| RProjects                         (* /projects *)
| RProjectTasks (i : IdParam)       (* /projects/:id/tasks *)
| RTaskToggle (i : IdParam)         (* /tasks/:id/toggle *)
| RApiProjects.                     (* /api/projects *)

(** [req.body] after [express.urlencoded] / [express.json], restricted to
    the fields the handlers and the Project schema read. *)
Record Body := mkBody {
  b_title : option string;
  b_name : option string;
  b_description : option string;
  b_progress : option Q
}.

Record Request := mkRequest {
  method : Method;
  route : Route;
  token : option Jwt.Token;         (* [req.cookies.token] *)
  body : Body;
  referrer : option string;         (* [req.get("Referrer")] *)
  user : option Jwt.Payload         (* [req.user], set by [authMiddleware] *)
}.

Definition with_user (u : option Jwt.Payload) (r : Request) : Request :=
  mkRequest (method r) (route r) (token r) (body r) (referrer r) u.

(** Where a redirect points. *)
Inductive Location :=
| ToPath (path : string)
| ToProject (i : IdParam).          (* `/projects/${id}` *)

Inductive Response :=
| Send (status : Z) (text : string)                     (* res.status(n).send(text) *)
| Render (status : Z) (view : string) (error : string)  (* res.status(n).render(view, { error }) *)
| Page (view : string) (listed : list ProjectSummary)   (* res.render(view, { projects }) *)
| Redirect (location : Location)                        (* res.redirect(location) *)
| JsonProject (p : ProjectDoc)                          (* res.json(p) *)
| JsonProjects (ps : list ProjectDoc)                   (* res.json(projects) *)
| NotFound                                              (* no route matched: 404 *)
| Unhandled (error : string).                           (* the handler's promise rejects uncaught *)

(** [next(err)] reaches the error handler at the end of [app.js]:
    [res.status(500).render("error", { error: err })]. *)
Definition errorHandler (err : string) : Response := Render 500 "error" err.

(** What a middleware does with a request. *)
Inductive Flow :=
| Next (req : Request)              (* next() *)
| Respond (res : Response).         (* a response, the chain stops *)

(** A falsy cookie: absent, or the empty string. *)
Definition token_present (t : option Jwt.Token) : bool :=
  match t with
  | None => false
  | Some (Jwt.Malformed raw) => negb (String.eqb raw EmptyString)
  | Some (Jwt.Jws _ _) => true
  end.

(** [authMiddleware]: every branch ends in [next()]. *)
Definition authMiddleware (JWT_SECRET : string) (now : Z) (req : Request) : Flow :=
  match token req with
  | Some tok =>
      if negb (token_present (token req)) then Next (with_user None req)
      else
        match Jwt.verify tok JWT_SECRET (seconds now) with
        | Some decoded => Next (with_user (Some decoded) req)
        | None => Next (with_user None req)             (* catch (err) *)
        end
  | None => Next (with_user None req)
  end.

(** [requireAuth] *)
Definition requireAuth (req : Request) : Flow :=
  match user req with
  | None => Respond (Redirect (ToPath "/login"))
  | Some _ => Next req
  end.

(* ================================================================== *)
(** * Mutating handlers

    A handler runs to completion on the server state and returns its
    response.  The record store answers every query; the failures that
    remain are the ones the handlers test for, Mongoose validation, and
    the cast of a route parameter. *)

(** The string held by a truthy optional string. *)
Definition string_of (v : option string) : string :=
  match v with
  | Some s => s
  | None => EmptyString
  end.

(** [task.completed = !task.completed] followed by [task.save()], which
    also refreshes [updatedAt]. *)
Definition toggled (now : Z) (t : TaskDoc) : TaskDoc :=
  mkTask (t_id t) (t_title t) (negb (t_completed t)) (t_projectId t)
         (t_createdAt t) now.

(** The third variant of [app.js]: every handler checks its input and
    wraps its body in [try { ... } catch (err) { next(err) }]. *)
Module Checked.

(** [app.post("/projects", requireAuth, ...)] *)
Definition createProject (now : Z) (req : Request) (s : Server)
  : Response * Server :=
  let projectTitle := or_else (b_title (body req)) (b_name (body req)) in
  if negb (truthy projectTitle) then
    (Render 400 "new-project" "Project name is required.", s)
  else
    let '(_, d) := Store.insertProject now (string_of projectTitle)
                     (b_description (body req)) (Some 0%Q) (db s) in
    let s1 := with_db d s in                          (* await project.save() *)
    let s2 := broadcastStats s1 in                    (* await broadcastStats() *)
    (Redirect (ToPath "/projects"), s2).

(** [app.post("/projects/:id/tasks", requireAuth, ...)] *)
Definition createTask (now : Z) (i : IdParam) (req : Request) (s : Server)
  : Response * Server :=
  let title := b_title (body req) in
  if negb (truthy title) then
    (Render 400 "error" "Task title is required", s)
  else
    match i with
    | NotAnId _ => (errorHandler "CastError", s)      (* findById rejects *)
    | Oid pid =>
        match Store.findProject pid (db s) with
        | None => (Render 404 "error" "Project not found", s)
        | Some project =>
            let '(_, d) := Store.insertTask now (string_of title)
                             (Some (p_id project)) (db s) in
            let s1 := with_db d s in                  (* await task.save() *)
            let s2 := broadcastStats s1 in            (* await broadcastStats() *)
            (Redirect (ToProject (Oid (p_id project))), s2)
        end
    end.

(** [app.post("/tasks/:id/toggle", requireAuth, ...)] *)
Definition toggleTask (now : Z) (i : IdParam) (req : Request) (s : Server)
  : Response * Server :=
  match i with
  | NotAnId _ => (errorHandler "CastError", s)        (* findById rejects *)
  | Oid tid =>
      match Store.findTask tid (db s) with
      | None => (Render 404 "error" "Task not found", s)
      | Some task =>
          let s1 := with_db (Store.saveTask (toggled now task) (db s)) s in
          let s2 := broadcastStats s1 in
          (Redirect (ToPath (string_of
                      (or_else (referrer req) (Some "/tasks"%string)))), s2)
      end
  end.

End Checked.

(** The first variant of [app.js]: the same three routes without input
    checks and without [try]/[catch]; a rejected promise is not caught. *)
Module Unchecked.

Definition createProject (now : Z) (req : Request) (s : Server)
  : Response * Server :=
  let title := or_else (b_title (body req)) (b_name (body req)) in
  if negb (truthy title) then (Unhandled "ValidationError", s)
  else
    let '(_, d) := Store.insertProject now (string_of title)
                     (b_description (body req)) (Some 0%Q) (db s) in
    (Redirect (ToPath "/projects"), broadcastStats (with_db d s)).

Definition createTask (now : Z) (i : IdParam) (req : Request) (s : Server)
  : Response * Server :=
  match i with
  | NotAnId _ => (Unhandled "ValidationError", s)
  | Oid pid =>
      if negb (truthy (b_title (body req))) then (Unhandled "ValidationError", s)
      else
        let '(_, d) := Store.insertTask now (string_of (b_title (body req)))
                         (Some pid) (db s) in
        (Redirect (ToProject i), broadcastStats (with_db d s))
  end.

Definition toggleTask (now : Z) (i : IdParam) (req : Request) (s : Server)
  : Response * Server :=
  match i with
  | NotAnId _ => (Unhandled "CastError", s)
  | Oid tid =>
      match Store.findTask tid (db s) with
      | None => (Unhandled "TypeError", s)            (* task is null *)
      | Some task =>
          let s1 := with_db (Store.saveTask (toggled now task) (db s)) s in
          (Redirect (ToPath "back"), broadcastStats s1)
      end
  end.

End Unchecked.

(** [routes/api/projects.js], mounted under [/api/projects]. *)
Module Api.

(** [router.post("/", ...)]: [new Project(req.body)], [p.save()],
    [res.json(p)].  There is no call of [broadcastStats].  The body is
    read as [Body] has it: a title, a description and a numeric
    progress, each possibly absent; a posted [null], [_id] or timestamp
    is not represented. *)
Definition createProject (now : Z) (req : Request) (s : Server)
  : Response * Server :=
  let title := b_title (body req) in
  if negb (truthy title) then (Unhandled "ValidationError", s)
  else
    let progress := match b_progress (body req) with
                    | Some q => Some q
                    | None => Some 0%Q                 (* schema default *)
                    end in
    let '(p, d) := Store.insertProject now (string_of title)
                     (b_description (body req)) progress (db s) in
    (JsonProject p, with_db d s).

(** [router.get("/", ...)] *)
Definition listProjects (s : Server) : Response * Server :=
  (JsonProjects (projects (db s)), s).

End Api.

(** A route behind [requireAuth]. *)
Definition protected (h : Request -> Server -> Response * Server)
    (req : Request) (s : Server) : Response * Server :=
  match requireAuth req with
  | Respond r => (r, s)
  | Next req' => h req' s
  end.

(** The application (third variant), as far as the health probe and the
    routes on projects and tasks go: [authMiddleware] runs first on
    every request, then the first matching route.  The other routes of
    the variant (dashboard, pages, registration, login, logout) are
    added by [site] below. *)
Definition app (JWT_SECRET : string) (now : Z) (req : Request) (s : Server)
  : Response * Server :=
  match authMiddleware JWT_SECRET now req with
  | Respond r => (r, s)
  | Next req1 =>
      match method req1, route req1 with
      | GET, RHealth => (Send 200 "OK", s)
      | GET, RProjects =>
          protected (fun _ s => (Page "projects" (map summarize (projects (db s))), s))
                    req1 s
      | POST, RProjects => protected (Checked.createProject now) req1 s
      | POST, RProjectTasks i => protected (Checked.createTask now i) req1 s
      | POST, RTaskToggle i => protected (Checked.toggleTask now i) req1 s
      | GET, RApiProjects => protected (fun _ => Api.listProjects) req1 s
      | POST, RApiProjects => protected (Api.createProject now) req1 s
      | _, _ => (NotFound, s)
      end
  end.

(* ================================================================== *)
(** * The event loop

    [wss.on("connection", async ws => ...)] and [broadcastStats] both
    suspend at [await computeStats()]: the two [find()] queries are
    issued, the function yields, and it resumes with the snapshot once
    the store has answered.  Other callbacks run in between.  A world is
    the server state together with the suspended continuations. *)

Module EventLoop.

(** A continuation suspended at [await computeStats()]. *)
Inductive Job :=
| JHandshake (c : nat)            (* the connection handler of client [c] *)
| JFanout.                        (* a call of [broadcastStats] *)

Record Pending := mkPending {
  job : Job;
  fetched : option StatsSnapshot  (* the store's answer, once it arrived *)
}.

Record World := mkWorld {
  server : Server;
  pending : list Pending;
  nextCid : nat                   (* connections accepted so far *)
}.

Definition initial : World := mkWorld (mkServer emptyDb [] []) [] 0.

(** The greeting of the first variant of [app.js]. *)
Definition greeting : string := "Connected".

(** A new connection: the library adds the socket to [wss.clients] and
    emits ["connection"]; the handler sends the greeting and suspends. *)
Definition accept (w : World) : World :=
  let c := nextCid w in
  let s := server w in
  mkWorld
    (mkServer (db s) (clients s ++ [mkClient c OPEN])
              (log s ++ [ESend Handshake c (info_message greeting)]))
    (pending w ++ [mkPending (JHandshake c) None])
    (S c).

(** An HTTP request: its store writes take effect and each call of
    [broadcastStats] it makes is suspended at its [await]. *)
Definition request (JWT_SECRET : string) (now : Z) (req : Request)
    (w : World) : World :=
  let s := server w in
  let s' := snd (app JWT_SECRET now req s) in
  let n := (broadcasts (log s') - broadcasts (log s))%nat in
  mkWorld
    (mkServer (db s') (clients s) (log s ++ repeat EBroadcast n))
    (pending w ++ repeat (mkPending JFanout None) n)
    (nextCid w).

(** The effect of resuming a continuation whose snapshot arrived. *)
Definition resume (j : Job) (st : StatsSnapshot) (s : Server) : Server :=
  match j with
  | JHandshake c => emit [ESend Handshake c (stats_message st)] s
  | JFanout => emit (fanout (stats_message st) (clients s)) s
  end.

Definition set_state (c : nat) (rs : Z) (cs : list Client) : list Client :=
  map (fun x => if Nat.eqb (cid x) c then mkClient c rs else x) cs.

Definition drop_client (c : nat) (cs : list Client) : list Client :=
  filter (fun x => negb (Nat.eqb (cid x) c)) cs.

Inductive step : World -> World -> Prop :=
| step_accept w :
    step w (accept w)
| step_request w secret now req :
    step w (request secret now req w)
| step_fetch w before j after :
    pending w = before ++ mkPending j None :: after ->
    step w (mkWorld (server w)
              (before ++ mkPending j (Some (computeStats (db (server w)))) :: after)
              (nextCid w))
| step_resume w before j st after :
    pending w = before ++ mkPending j (Some st) :: after ->
    step w (mkWorld (resume j st (server w)) (before ++ after) (nextCid w))
| step_closing w c :              (* the closing handshake starts *)
    step w (mkWorld (mkServer (db (server w))
                       (set_state c CLOSING (clients (server w)))
                       (log (server w)))
              (pending w) (nextCid w))
| step_closed w c :               (* ["close"]: the library deletes the socket *)
    step w (mkWorld (mkServer (db (server w))
                       (drop_client c (clients (server w)))
                       (log (server w)))
              (pending w) (nextCid w)).

Inductive reachable : World -> Prop :=
| reach_initial : reachable initial
| reach_step w w' : reachable w -> step w w' -> reachable w'.

(** Sends on connection [c] that its own handler issued. *)
Definition handshake_sends (c : nat) (l : list Event) : list Json :=
  flat_map (fun om => match om with
                      | (Handshake, m) => [m]
                      | (Fanout, _) => []
                      end) (inbox c l).

(** Suspended connection handlers of [c]. *)
Definition awaiting (c : nat) (ps : list Pending) : nat :=
  List.length (filter (fun p => match job p with
                                | JHandshake c' => Nat.eqb c' c
                                | JFanout => false
                                end) ps).

End EventLoop.

(* ================================================================== *)
(** * Vocabulary of the properties *)

Definition completedTasks (d : Db) : Z := length_Z (filter t_completed (tasks d)).

(** Following the specification's words: [round(100 * n / m)] on the
    exact quotient, halfway cases upwards (as [Math.round] breaks them)
    or to the even neighbour. *)
Definition round_half_up (n m : Z) : Z := ((2 * n + m) / (2 * m))%Z.

Definition round_half_even (n m : Z) : Z :=
  let q := (n / m)%Z in
  let r := (n mod m)%Z in
  if (2 * r <? m)%Z then q
  else if (m <? 2 * r)%Z then (q + 1)%Z
  else if Z.even q then q else (q + 1)%Z.

(** [n / m] lies exactly halfway between two integers. *)
Definition halfway (n m : Z) : Prop :=
  ((2 * n) mod m = 0)%Z /\ Z.odd (2 * n / m) = true.

(** A store of [done] completed and [open] open tasks. *)
Definition demo_task (done : bool) : TaskDoc := mkTask 0%N "t" done None 0 0.
Definition demo_db (done open : nat) : Db :=
  mkDb [] (repeat (demo_task true) done ++ repeat (demo_task false) open) 1%N.

(** The events a handler added to the log. *)
Definition since (s s' : Server) : list Event :=
  skipn (List.length (log s)) (log s').

(** The three mutating operations of the specification, served by the
    checked handlers. *)
Inductive Mutation :=
| CreateProject
| CreateTask (i : IdParam)
| ToggleTask (i : IdParam).

Definition run (m : Mutation) (now : Z) (req : Request) (s : Server)
  : Response * Server :=
  match m with
  | CreateProject => Checked.createProject now req s
  | CreateTask i => Checked.createTask now i req s
  | ToggleTask i => Checked.toggleTask now i req s
  end.

(** Following the specification's words: a mutating operation fails with
    a validation error when a required field is missing, and with a
    not-found error when the project or task it names does not exist. *)
Inductive Fails : Mutation -> Request -> Db -> Z -> Prop :=
| missing_project_title req d :
    truthy (or_else (b_title (body req)) (b_name (body req))) = false ->
    Fails CreateProject req d 400
| missing_task_title i req d :
    truthy (b_title (body req)) = false ->
    Fails (CreateTask i) req d 400
| missing_project pid req d :
    truthy (b_title (body req)) = true ->
    Store.findProject pid d = None ->
    Fails (CreateTask (Oid pid)) req d 404
| missing_task tid req d :
    Store.findTask tid d = None ->
    Fails (ToggleTask (Oid tid)) req d 404.

(** A registry with the given clients. *)
Definition with_clients (cs : list Client) (s : Server) : Server :=
  mkServer (db s) cs (log s).

(** A small running server used to exercise the handlers: one project,
    one open task, an open and a closing connection. *)
Definition demo_secret : string := "dev-secret-key-change-me".
Definition ann : User := mkUser 7%N "Ann" "ann@example.org".
Definition demo_project : ProjectDoc := mkProject 1%N "A" None (Some 0%Q) 10 10.
Definition demo_open_task : TaskDoc := mkTask 2%N "t1" false (Some 1%N) 20 20.
Definition demo_server : Server :=
  mkServer (mkDb [demo_project] [demo_open_task] 3%N)
           [mkClient 0%nat CLOSING; mkClient 1%nat OPEN] [].

(** A request carrying a session token issued to [ann] at time [1000]. *)
Definition demo_request (m : Method) (r : Route) (title : option string) : Request :=
  mkRequest m r (Some (issueToken demo_secret 1000 ann))
            (mkBody title None None None) None None.

(** [authenticate]: the identity the Session Gate attaches to a request,
    read off [req.user] after [authMiddleware]. *)
Definition authenticate (JWT_SECRET : string) (now : Z) (req : Request)
  : option Jwt.Payload :=
  match authMiddleware JWT_SECRET now req with
  | Next req' => user req'
  | Respond _ => None
  end.

(** Following the specification's words: the decoded identity equals
    [{subject id, display name, email}] of the user. *)
Definition identity_equals (u : User) (p : Jwt.Payload) : Prop :=
  Jwt.sub_id p = u_id u /\
  Jwt.sub_name p = Some (u_name u) /\
  Jwt.sub_email p = Some (u_email u).

(** A request that carries the given cookie. *)
Definition request_with (tok : option Jwt.Token) : Request :=
  mkRequest GET RProjects tok (mkBody None None None None) None None.

(** Following the specification's words: a token "once tampered with" is
    an issued token whose payload or whose signature was altered, or
    whose structure was destroyed. *)
Inductive tampered : Jwt.Token -> Jwt.Token -> Prop :=
| payload_altered body sig body' :
    body' <> body -> tampered (Jwt.Jws body sig) (Jwt.Jws body' sig)
| signature_altered body sig sig' :
    sig' <> sig -> tampered (Jwt.Jws body sig) (Jwt.Jws body sig')
| structure_destroyed body sig raw :
    tampered (Jwt.Jws body sig) (Jwt.Malformed raw).

(** The two issuing expressions of the source. *)
Inductive Issuer := SignsIdOnly | SignsIdNameEmail.

Definition issue (k : Issuer) (secret : string) (now : Z) (u : User) : Jwt.Token :=
  match k with
  | SignsIdOnly => issueToken_idOnly secret now u
  | SignsIdNameEmail => issueToken secret now u
  end.

(** Vocabulary for the connection handshake. *)
Module Handshaking.
Import EventLoop.

Definition info : Json := info_message greeting.

(** What the handler of connection [c] has done so far: its greeting
    opens the connection's traffic, and either the handler is still
    suspended with only the greeting sent, or it has finished after
    sending one snapshot. *)
Definition handshake_ok (w : World) (c : nat) : Prop :=
  (exists rest, inbox c (log (server w)) = (Handshake, info) :: rest) /\
  ((handshake_sends c (log (server w)) = [info] /\
    awaiting c (pending w) = 1%nat)
   \/
   (exists st, handshake_sends c (log (server w)) = [info; stats_message st] /\
               awaiting c (pending w) = 0%nat)).

(** Following the specification's words: once the handler is done the
    connection has received the greeting and then the snapshot, with no
    broadcast before or between them. *)
Definition greeted_without_interleaving (w : World) (c : nat) : Prop :=
  awaiting c (pending w) = 0%nat ->
  exists st rest,
    inbox c (log (server w)) =
    (Handshake, info) :: (Handshake, stats_message st) :: rest.

Record invariant (w : World) : Prop := mkInvariant {
  inv_clients : Forall (fun x => (cid x < nextCid w)%nat) (clients (server w));
  inv_future : forall c, (nextCid w <= c)%nat ->
                 inbox c (log (server w)) = [] /\ awaiting c (pending w) = 0%nat;
  inv_past : forall c, (c < nextCid w)%nat -> handshake_ok w c
}.

(** Finitely many steps. *)
Inductive steps : World -> World -> Prop :=
| steps_done w : steps w w
| steps_more w w1 w2 : step w w1 -> steps w1 w2 -> steps w w2.

(** A race: a connection is accepted, and while its handler waits for
    the store a project is created and broadcast. *)
Definition race_request : Request :=
  mkRequest POST RProjects
    (Some (issueToken "dev-secret-key-change-me" 1000 (mkUser 7%N "Ann" "ann@example.org")))
    (mkBody (Some "A"%string) None None None) None None.
Definition race1 : World := accept initial.
Definition race2 : World := request "dev-secret-key-change-me" 2000 race_request race1.
Definition race3 : World :=
  mkWorld (server race2)
          ([mkPending (JHandshake 0) None]
             ++ mkPending JFanout (Some (computeStats (db (server race2)))) :: [])
          (nextCid race2).
Definition race4 : World :=
  mkWorld (resume JFanout (computeStats (db (server race2))) (server race3))
          ([mkPending (JHandshake 0) None] ++ []) (nextCid race3).
Definition race5 : World :=
  mkWorld (server race4)
          ([] ++ mkPending (JHandshake 0) (Some (computeStats (db (server race4)))) :: [])
          (nextCid race4).
Definition race6 : World :=
  mkWorld (resume (JHandshake 0) (computeStats (db (server race4))) (server race5))
          ([] ++ []) (nextCid race5).





End Handshaking.

(* ================================================================== *)
(** * Pages of the third variant

    The read-only routes of the third variant of [app.js]: the dashboard,
    the project page and the task list.  They return what they render
    and have no access to the server state other than reading it. *)

(** One entry of [formattedTasks]. *)
Record TaskRow := mkRow {
  r_id : ObjectId;
  r_title : string;
  r_completed : bool;
  r_projectTitle : string
}.

Inductive View :=
| Dashboard (st : StatsSnapshot)                          (* res.render("dashboard", stats) *)
| ProjectDetail (p : ProjectSummary) (ts : list TaskDoc)  (* res.render("project-detail", { project, tasks }) *)
| TaskList (rows : list TaskRow)                          (* res.render("tasks", { tasks }) *)
| Other (res : Response).

Module Pages.

(** [.populate("projectId")]: the referenced project document, or
    [null] when the task has no reference or the project is gone. *)
Definition populate (d : Db) (t : TaskDoc) : option ProjectDoc :=
  match t_projectId t with
  | Some pid => Store.findProject pid d
  | None => None
  end.

(** [task.projectId?.title || "Unknown"] *)
Definition projectTitle (d : Db) (t : TaskDoc) : string :=
  string_of (or_else (option_map p_title (populate d t)) (Some "Unknown"%string)).

Definition formatTask (d : Db) (t : TaskDoc) : TaskRow :=
  mkRow (t_id t) (t_title t) (t_completed t) (projectTitle d t).

(** [app.get("/tasks", requireAuth, ...)] *)
Definition listTasks (req : Request) (s : Server) : View :=
  match requireAuth req with
  | Respond r => Other r
  | Next _ => TaskList (map (formatTask (db s)) (tasks (db s)))
  end.

(** [app.get("/", ...)]: the check of [req.user] is written out in the
    handler. *)
Definition dashboard (req : Request) (s : Server) : View :=
  match user req with
  | None => Other (Redirect (ToPath "/login"))
  | Some _ => Dashboard (computeStats (db s))
  end.

(** [Task.find({ projectId: project._id })] *)
Definition tasksOf (pid : ObjectId) (d : Db) : list TaskDoc :=
  filter (fun t => match t_projectId t with
                   | Some q => N.eqb q pid
                   | None => false
                   end) (tasks d).

(** [app.get("/projects/:id", requireAuth, ...)] *)
Definition projectDetail (i : IdParam) (req : Request) (s : Server) : View :=
  match requireAuth req with
  | Respond r => Other r
  | Next _ =>
      match i with
      | NotAnId _ => Other (errorHandler "CastError")   (* findById rejects *)
      | Oid pid =>
          match Store.findProject pid (db s) with
          | None => Other (Render 404 "error" "Project not found")
          | Some project =>
              ProjectDetail (summarize project) (tasksOf (p_id project) (db s))
          end
      end
  end.

End Pages.

(* ================================================================== *)
(** * Registration and login (third variant)

    [bcryptjs] is modelled symbolically, as the token library is: a hash
    remembers salt and password, and comparison succeeds exactly on the
    hashed password. *)

Module Accounts.

Inductive PasswordHash := Bcrypt (salt : N) (password : string).

(** [bcrypt.compare(s, hash)] on two strings. *)
Definition compare (s : string) (h : PasswordHash) : bool :=
  match h with
  | Bcrypt _ p => String.eqb s p
  end.

(** Modelled from the spec: [models/User.js] is not among the sources.  A
    user document holds what the routes read and write: [_id], [name],
    [email] (the identity) and [passwordHash], "a salted one-way hash". *)
Record Account := mkAccount {
  who : User;
  passwordHash : PasswordHash
}.

(** [User.findOne({ email })]: the first document with that email; a
    query for [undefined] matches no registered user. *)
Definition findOne (email : option string) (us : list Account) : option Account :=
  match email with
  | Some e => find (fun a => String.eqb (u_email (who a)) e) us
  | None => None
  end.

End Accounts.

(** The fields of [req.body] the two forms post. *)
Record Form := mkForm {
  f_name : option string;
  f_email : option string;
  f_password : option string;
  f_confirmPassword : option string
}.

(** [a !== b] negated, on optional strings. *)
Definition same_value (a b : option string) : bool :=
  match a, b with
  | Some x, Some y => String.eqb x y
  | None, None => true
  | _, _ => false
  end.

Inductive AuthResult :=
| Shown (res : Response)            (* a page or the error handler *)
| LoggedIn (cookie : Jwt.Token)     (* res.cookie("token", token, { httpOnly: true }); res.redirect("/") *)
| LoggedOut.                        (* res.clearCookie("token"); res.redirect("/login") *)

Module Auth.
Import Accounts.

(** [app.post("/register", ...)].  [fresh] is the [_id] the store assigns
    to the new document and [salt] the salt [bcrypt.hash(password, 10)]
    draws. *)
Definition register (JWT_SECRET : string) (now : Z) (fresh : ObjectId) (salt : N)
    (form : Form) (us : list Account) : AuthResult * list Account :=
  if negb (truthy (f_name form)) || negb (truthy (f_email form))
     || negb (truthy (f_password form)) then
    (Shown (Render 400 "register" "All fields are required."), us)
  else if negb (same_value (f_password form) (f_confirmPassword form)) then
    (Shown (Render 400 "register" "Passwords do not match."), us)
  else
    match findOne (f_email form) us with
    | Some _ =>
        (Shown (Render 400 "register" "Email already registered. Please log in."), us)
    | None =>
        let passwordHash := Bcrypt salt (string_of (f_password form)) in
        let user := mkUser fresh (string_of (f_name form)) (string_of (f_email form)) in
        (LoggedIn (issueToken JWT_SECRET now user), us ++ [mkAccount user passwordHash])
    end.

(** [app.post("/login", ...)].  [bcrypt.compare] rejects when the
    password is not a string; the handler's [catch] passes that on. *)
Definition login (JWT_SECRET : string) (now : Z) (form : Form) (us : list Account)
  : AuthResult :=
  match findOne (f_email form) us with
  | None => Shown (Render 400 "login" "Invalid email or password.")
  | Some account =>
      match f_password form with
      | None => Shown (errorHandler "Illegal arguments")
      | Some password =>
          if compare password (passwordHash account) then
            LoggedIn (issueToken JWT_SECRET now (who account))
          else Shown (Render 400 "login" "Invalid email or password.")
      end
  end.

(** [app.post("/logout", ...)] *)
Definition logout : AuthResult := LoggedOut.

End Auth.

(* ================================================================== *)
(** * The whole route table (third variant)

    [app] above serves the health probe and the routes that read or
    write projects and tasks.  The remaining routes of the third variant
    of [app.js] are the dashboard, the two pages of [Pages], the form
    for a new project, and registration, login and logout, which work on
    the accounts. *)

Inductive Path :=
| Core (r : Route)                  (* a path [app] serves *)
| PRoot                             (* / *)
| PRegister                         (* /register *)
| PLogin                            (* /login *)
| PLogout                           (* /logout *)
| PTasks                            (* /tasks *)
| PProjectNew                       (* /projects/new *)
| PProjectDetail (i : IdParam).     (* /projects/:id *)

Record Visit := mkVisit {
  v_method : Method;
  v_path : Path;
  v_token : option Jwt.Token;       (* [req.cookies.token] *)
  v_body : Body;                    (* [req.body], as the project and task routes read it *)
  v_form : Form;                    (* [req.body], as the register and login routes read it *)
  v_referrer : option string
}.

Inductive Answer :=
| Plain (res : Response)
| Viewed (v : View)
| FormPage (view : string)          (* res.render(view, { error: null }) *)
| Session (a : AuthResult).

(** Everything the routes work on: the server of [app] and the accounts. *)
Record Site := mkSite {
  core : Server;
  accounts : list Accounts.Account
}.

(** The request as [app] and the page handlers see it. *)
Definition as_request (r : Route) (v : Visit) : Request :=
  mkRequest (v_method v) r (v_token v) (v_body v) (v_referrer v) None.

(** [req.user] after [authMiddleware]. *)
Definition visitor (JWT_SECRET : string) (now : Z) (v : Visit) : option Jwt.Payload :=
  authenticate JWT_SECRET now (as_request RHealth v).

(** [app.get("/register", ...)] and [app.get("/login", ...)]: a visitor
    with an identity is sent to the dashboard, anyone else gets the form. *)
Definition form_or_home (view : string) (u : option Jwt.Payload) : Answer :=
  match u with
  | Some _ => Plain (Redirect (ToPath "/"))
  | None => FormPage view
  end.

(** The application with all its routes.  [fresh] and [salt] are the
    [_id] and the salt a registration would draw. *)
Definition site (JWT_SECRET : string) (now : Z) (fresh : ObjectId) (salt : N)
    (v : Visit) (st : Site) : Answer * Site :=
  let u := visitor JWT_SECRET now v in
  let req := with_user u (as_request RHealth v) in
  match v_path v, v_method v with
  | Core r, _ =>
      let '(res, s') := app JWT_SECRET now (as_request r v) (core st) in
      (Plain res, mkSite s' (accounts st))
  | PRoot, GET => (Viewed (Pages.dashboard req (core st)), st)
  | PRegister, GET => (form_or_home "register" u, st)
  | PRegister, POST =>
      let '(a, us) := Auth.register JWT_SECRET now fresh salt (v_form v) (accounts st) in
      (Session a, mkSite (core st) us)
  | PLogin, GET => (form_or_home "login" u, st)
  | PLogin, POST => (Session (Auth.login JWT_SECRET now (v_form v) (accounts st)), st)
  | PLogout, POST => (Session Auth.logout, st)
  | PTasks, GET => (Viewed (Pages.listTasks req (core st)), st)
  | PProjectNew, GET =>
      match requireAuth req with
      | Respond r => (Plain r, st)
      | Next _ => (FormPage "new-project", st)
      end
  | PProjectDetail i, GET => (Viewed (Pages.projectDetail i req (core st)), st)
  | _, _ => (Plain NotFound, st)
  end.

(** The paths that serve visitors without an identity. *)
Definition public (p : Path) : bool :=
  match p with
  | Core RHealth | PRegister | PLogin | PLogout => true
  | _ => false
  end.

(** The answer sends the visitor to the login form. *)
Definition sent_to_login (a : Answer) : Prop :=
  a = Plain (Redirect (ToPath "/login")) \/
  a = Viewed (Other (Redirect (ToPath "/login"))).

(* ================================================================== *)
(** * Vocabulary of the further properties *)

(** A store in which every project has a title and every task points to
    a stored project. *)
Definition titled (p : ProjectDoc) : Prop := p_title p <> EmptyString.

Definition anchored (d : Db) (t : TaskDoc) : Prop :=
  exists pid p, t_projectId t = Some pid /\ Store.findProject pid d = Some p.

Definition consistent (d : Db) : Prop :=
  Forall titled (projects d) /\ Forall (anchored d) (tasks d).

(** Emails of the registered accounts, in order. *)
Definition emails (us : list Accounts.Account) : list string :=
  map (fun a => u_email (Accounts.who a)) us.

(** The identity a cookie yields at a given time. *)
Definition identity_of (JWT_SECRET : string) (now : Z) (cookie : Jwt.Token)
  : option Jwt.Payload :=
  authenticate JWT_SECRET now (request_with (Some cookie)).

(** Messages that broadcasts put on connection [c]. *)
Definition fanned_out (c : nat) (l : list Event) : list Json :=
  flat_map (fun om : Origin * Json =>
              match om with
              | (Fanout, m) => [m]
              | (Handshake, _) => []
              end) (inbox c l).

(** Connection [c] was accepted and has left the registry. *)
Definition gone (w : EventLoop.World) (c : nat) : Prop :=
  (c < EventLoop.nextCid w)%nat /\
  ~ In c (map cid (clients (EventLoop.server w))).

(** A send that fits the live channel protocol on a loop that accepted
    [n] connections: addressed to one of them, and either the greeting,
    sent by the connection handler, or a ["stats"] message. *)
Definition conforming (n : nat) (e : Event) : Prop :=
  match e with
  | EBroadcast => True
  | ESend o c m =>
      (c < n)%nat /\
      ((o = Handshake /\ m = Handshaking.info) \/ exists st, m = stats_message st)
  end.

(* ================================================================== *)
(** * Double-precision arithmetic *)

Module JsNumberFacts.
Import JsNumber.
Local Open Scope Q_scope.

Lemma pow2_pos (e : Z) : 0 < 2 ^ e.
Proof. apply Qpower_0_lt. reflexivity. Qed.

Lemma pow2_shift (e : Z) : 2 ^ e * 2 ^ (- e) == 1.
Proof.
  rewrite Qpower_opp. field. apply Qpower_not_0. discriminate.
Qed.

Lemma nearest_even_close (x : Q) :
  Qabs (inject_Z (nearest_even x) - x) <= 1 # 2.
Proof.
  unfold nearest_even.
  pose proof (Qfloor_le x) as Hlo. pose proof (Qlt_floor x) as Hhi.
  rewrite inject_Z_plus in Hhi. change (inject_Z 1) with 1 in Hhi.
  apply Qabs_Qle_condition.
  destruct (Qcompare_spec (x - inject_Z (Qfloor x)) (1 # 2)) as [H|H|H].
  - destruct (Z.even (Qfloor x)); [| rewrite inject_Z_plus; change (inject_Z 1) with 1];
      split; lra.
  - split; lra.
  - rewrite inject_Z_plus; change (inject_Z 1) with 1. split; lra.
Qed.

Lemma ilog2_lower (x : Q) : 0 < x -> 2 ^ ilog2 x <= x.
Proof.
  intros Hx. unfold ilog2.
  set (a := Z.log2 (Qnum x)). set (b := Z.log2 (Z.pos (Qden x))).
  destruct (Qle_bool (2 ^ (a - b)) x) eqn:E.
  - now apply Qle_bool_iff.
  - clear E.
    assert (Hn : (0 < Qnum x)%Z).
    { destruct x as [n d]. unfold Qlt in Hx. simpl in *. lia. }
    assert (Ha : (0 <= a)%Z) by apply Z.log2_nonneg.
    assert (Hb : (0 <= b)%Z) by apply Z.log2_nonneg.
    pose proof (Z.log2_spec (Qnum x) Hn) as [Hna _]. fold a in Hna.
    assert (Hd : (0 < Z.pos (Qden x))%Z) by lia.
    pose proof (Z.log2_spec _ Hd) as [_ Hdb]. fold b in Hdb.
    replace (a - b - 1)%Z with (a - (b + 1))%Z by lia.
    rewrite Qpower_minus by discriminate.
    rewrite <- !(Zpower_Qpower 2) by lia.
    apply Qle_shift_div_r.
    { change 0 with (inject_Z 0). rewrite <- Zlt_Qlt. apply Z.pow_pos_nonneg; lia. }
    destruct x as [n d]. simpl in *.
    unfold Qle, Qmult, inject_Z. simpl.
    rewrite !Z.mul_1_r.
    change (Z.succ b) with (b + 1)%Z in Hdb.
    assert (0 < 2 ^ a)%Z by (apply Z.pow_pos_nonneg; lia).
    nia.
Qed.

Lemma ilog2_upper (x : Q) : 0 < x -> x < 2 ^ (ilog2 x + 1).
Proof.
  intros Hx. unfold ilog2.
  set (a := Z.log2 (Qnum x)). set (b := Z.log2 (Z.pos (Qden x))).
  destruct (Qle_bool (2 ^ (a - b)) x) eqn:E.
  - clear E.
    assert (Hn : (0 < Qnum x)%Z).
    { destruct x as [n d]. unfold Qlt in Hx. simpl in *. lia. }
    assert (Ha : (0 <= a)%Z) by apply Z.log2_nonneg.
    assert (Hb : (0 <= b)%Z) by apply Z.log2_nonneg.
    pose proof (Z.log2_spec (Qnum x) Hn) as [_ Hna]. fold a in Hna.
    assert (Hd : (0 < Z.pos (Qden x))%Z) by lia.
    pose proof (Z.log2_spec _ Hd) as [Hdb _]. fold b in Hdb.
    replace (a - b + 1)%Z with ((a + 1) - b)%Z by lia.
    rewrite Qpower_minus by discriminate.
    rewrite <- !(Zpower_Qpower 2) by lia.
    apply Qlt_shift_div_l.
    { change 0 with (inject_Z 0). rewrite <- Zlt_Qlt. apply Z.pow_pos_nonneg; lia. }
    destruct x as [n d]. simpl in *.
    unfold Qlt, Qmult, inject_Z. simpl.
    rewrite !Z.mul_1_r.
    change (Z.succ a) with (a + 1)%Z in Hna.
    assert (0 < 2 ^ b)%Z by (apply Z.pow_pos_nonneg; lia).
    nia.
  - replace (a - b - 1 + 1)%Z with (a - b)%Z by lia.
    apply Qnot_le_lt. intros H. apply Qle_bool_iff in H. congruence.
Qed.

Lemma round53_error (x : Q) :
  0 < x -> Qabs (round53 x - x) <= x * u53.
Proof.
  intros Hx. unfold round53.
  set (e := (ilog2 x - 52)%Z).
  set (s := x * 2 ^ (- e)).
  pose proof (nearest_even_close s) as Hm.
  apply Qabs_Qle_condition in Hm.
  set (m := inject_Z (nearest_even s)) in *.
  pose proof (pow2_pos e) as HP.
  pose proof (pow2_shift e) as Hsh.
  pose proof (ilog2_lower Hx) as Hlo.
  replace (ilog2 x) with (e + 52)%Z in Hlo by (unfold e; lia).
  rewrite Qpower_plus in Hlo by discriminate.
  change (2 ^ 52) with (4503599627370496 # 1) in Hlo.
  set (P := 2 ^ e) in *.
  assert (Hs : s * P == x).
  { unfold s. rewrite <- Qmult_assoc, (Qmult_comm (2 ^ (- e))). rewrite Hsh. ring. }
  apply Qabs_Qle_condition. unfold u53.
  assert (H1 : 0 <= (m - s + (1 # 2)) * P)
    by (apply Qmult_le_0_compat; lra).
  assert (H2 : 0 <= ((1 # 2) - (m - s)) * P)
    by (apply Qmult_le_0_compat; lra).
  clearbody P m s. clear Hsh.
  split; lra.
Qed.

Lemma RN_error (x : Q) : 0 <= x -> Qabs (RN x - x) <= x * u53.
Proof.
  intros Hx. unfold RN.
  destruct (Qcompare_spec x 0) as [H|H|H].
  - apply Qabs_Qle_condition. unfold u53. split; lra.
  - lra.
  - now apply round53_error.
Qed.

(** The double computed for [(c / t) * 100] is within [201 * 2^-53] of
    the exact percentage. *)
Lemma percent_error (c t : Z) :
  (0 <= c <= t)%Z -> (0 < t)%Z ->
  Qabs (percent c t - 100 * (inject_Z c / inject_Z t)) <= 201 * u53.
Proof.
  intros Hc Ht. unfold percent, mul, div, of_Z.
  set (X := inject_Z c / inject_Z t).
  assert (HT : 0 < inject_Z t) by (change 0 with (inject_Z 0); now rewrite <- Zlt_Qlt).
  assert (HX0 : 0 <= X).
  { unfold X. apply Qle_shift_div_l; trivial. rewrite Qmult_0_l.
    change 0 with (inject_Z 0). rewrite <- Zle_Qle. lia. }
  assert (HX1 : X <= 1).
  { unfold X. apply Qle_shift_div_r; trivial. rewrite Qmult_1_l.
    rewrite <- Zle_Qle. lia. }
  pose proof (RN_error HX0) as H1. apply Qabs_Qle_condition in H1.
  set (y1 := RN X) in *.
  assert (Hy1 : 0 <= y1 * inject_Z 100).
  { change (inject_Z 100) with 100. unfold u53 in H1. lra. }
  pose proof (RN_error Hy1) as H2. apply Qabs_Qle_condition in H2.
  set (y2 := RN (y1 * inject_Z 100)) in *.
  change (inject_Z 100) with 100 in *.
  clearbody y2 y1 X. apply Qabs_Qle_condition.
  unfold u53 in *. split; lra.
Qed.

(** [Math.round] of that double is an integer nearest to the exact
    percentage, as long as the divisor is an array length. *)
Lemma Math_round_percent_nearest (c t : Z) :
  (0 <= c <= t)%Z -> (0 < t < 2 ^ 32)%Z ->
  (- t <= 2 * t * Math_round (percent c t) - 200 * c <= t)%Z.
Proof.
  intros Hc Ht.
  pose proof (@percent_error c t Hc (proj1 Ht)) as He.
  apply Qabs_Qle_condition in He.
  unfold Math_round.
  set (y := percent c t) in *.
  pose proof (Qfloor_le (y + (1 # 2))) as Hlo.
  pose proof (Qlt_floor (y + (1 # 2))) as Hhi.
  set (f := Qfloor (y + (1 # 2))) in *.
  rewrite inject_Z_plus in Hhi. change (inject_Z 1) with 1 in Hhi.
  set (X := inject_Z c / inject_Z t) in *.
  assert (HT : 0 < inject_Z t) by (change 0 with (inject_Z 0); rewrite <- Zlt_Qlt; lia).
  assert (HT' : inject_Z t <= 4294967296).
  { change 4294967296 with (inject_Z (2 ^ 32)). rewrite <- Zle_Qle. lia. }
  assert (HXT : X * inject_Z t == inject_Z c).
  { unfold X. field. lra. }
  assert (A : 0 <= (100 * X + 201 * u53 + (1 # 2) - inject_Z f) * inject_Z t)
    by (apply Qmult_le_0_compat; lra).
  assert (B : 0 <= (inject_Z f + 1 - (100 * X - 201 * u53 + (1 # 2))) * inject_Z t)
    by (apply Qmult_le_0_compat; lra).
  assert (U : inject_Z (2 * t * f) < inject_Z (200 * c + t + 1)).
  { rewrite !inject_Z_plus, !inject_Z_mult.
    change (inject_Z 1) with 1. change (inject_Z 2) with 2.
    change (inject_Z 200) with 200.
    set (T := inject_Z t) in *. set (F := inject_Z f) in *.
    set (C := inject_Z c) in *. clearbody T F C X y. unfold u53 in *. lra. }
  assert (L : inject_Z (200 * c) < inject_Z (2 * t * f + t + 1)).
  { rewrite !inject_Z_plus, !inject_Z_mult.
    change (inject_Z 1) with 1. change (inject_Z 2) with 2.
    change (inject_Z 200) with 200.
    set (T := inject_Z t) in *. set (F := inject_Z f) in *.
    set (C := inject_Z c) in *. clearbody T F C X y. unfold u53 in *. lra. }
  rewrite <- Zlt_Qlt in U, L. lia.
Qed.

(** On every count up to sixty the model computes the very double the
    IEEE-754 specification of the standard library gives. *)
Example percent_agrees_with_ieee :
  forallb (fun t =>
    forallb (fun c =>
      Qeq_bool (Ieee.to_Q (Ieee.percent (Z.of_nat c) (Z.of_nat t)))
               (percent (Z.of_nat c) (Z.of_nat t)))
      (seq 0 (S t)))
    (seq 1 60) = true.
Proof. vm_compute. reflexivity. Qed.
End JsNumberFacts.

(* ================================================================== *)
(** * Stats Aggregator *)

Section StatsAggregator.
Local Open Scope Z_scope.

Lemma length_Z_nonneg {A} (l : list A) : 0 <= length_Z l.
Proof. unfold length_Z. lia. Qed.

Lemma completed_le_total (d : Db) : 0 <= completedTasks d <= length_Z (tasks d).
Proof.
  unfold completedTasks, length_Z. split; [lia|].
  apply inj_le, filter_length_le.
Qed.

(** [round_half_up n m] is the integer nearest to [n / m], the upper one
    of two. *)
Lemma round_half_up_nearest (n m : Z) :
  0 < m -> - m < 2 * m * round_half_up n m - 2 * n <= m.
Proof.
  intros Hm. unfold round_half_up.
  pose proof (Z.div_mod (2 * n + m) (2 * m) ltac:(lia)) as E.
  pose proof (Z.mod_pos_bound (2 * n + m) (2 * m) ltac:(lia)) as B.
  lia.
Qed.

Lemma nearest_is_half_up (c t k : Z) :
  0 < t -> - t <= 2 * t * k - 200 * c <= t ->
  ~ halfway (100 * c) t -> k = round_half_up (100 * c) t.
Proof.
  intros Ht Hk Hnt. unfold round_half_up.
  assert (Hr : (2 * (100 * c) + t) mod (2 * t) <> 0).
  { intros E. apply Hnt. unfold halfway.
    apply Z.mod_divide in E; [|lia]. destruct E as [q E].
    assert (E2 : 2 * (100 * c) = (2 * q - 1) * t) by lia.
    rewrite E2. rewrite Z.mod_mul, Z.div_mul by lia. split; trivial.
    replace (2 * q - 1) with (1 + 2 * (q - 1)) by lia.
    now rewrite Z.odd_add_mul_2. }
  pose proof (Z.div_mod (2 * (100 * c) + t) (2 * t) ltac:(lia)) as E.
  pose proof (Z.mod_pos_bound (2 * (100 * c) + t) (2 * t) ltac:(lia)) as B.
  set (q := (2 * (100 * c) + t) / (2 * t)) in *.
  set (r := (2 * (100 * c) + t) mod (2 * t)) in *.
  nia.
Qed.

(** C1 as the code has it.  The snapshot counts the projects and the
    tasks; [overallCompletion] is [0] without tasks and otherwise an
    integer nearest to the exact percentage [100 * c / M], equal to its
    rounding with halfway cases upwards whenever the percentage is not
    exactly halfway between two integers; and [projects] lists, in
    order, one summary [{id, name, description, progress}] per project,
    [progress] reading [0] when the document has none. *)
Theorem computeStats_snapshot (d : Db) :
  length_Z (tasks d) < 2 ^ 32 ->
  let st := computeStats d in
  let M := length_Z (tasks d) in
  let c := completedTasks d in
  totalProjects st = length_Z (projects d) /\
  totalTasks st = M /\
  (M = 0 -> overallCompletion st = 0) /\
  (0 < M -> - M <= 2 * M * overallCompletion st - 200 * c <= M) /\
  (0 < M -> ~ halfway (100 * c) M ->
     overallCompletion st = round_half_up (100 * c) M) /\
  Forall2 (fun p x =>
             id x = p_id p /\ name x = p_title p /\
             description x = p_description p /\
             (progress x == match p_progress p with Some q => q | None => 0 end)%Q)
          (projects d) (summaries st).
Proof.
  intros Hlen st M c.
  assert (HM : M < 2 ^ 32) by exact Hlen.
  pose proof (completed_le_total d) as Hc. fold c M in Hc.
  assert (Hnear : 0 < M -> - M <= 2 * M * overallCompletion st - 200 * c <= M).
  { intros Hpos. unfold st, computeStats, statsOf. cbn [overallCompletion].
    fold M. destruct (Z.eqb_spec M 0) as [E|_]; [lia|].
    apply JsNumberFacts.Math_round_percent_nearest; lia. }
  repeat split; trivial.
  - intros E. unfold st, computeStats, statsOf. cbn [overallCompletion].
    fold M. rewrite E. reflexivity.
  - now apply Hnear.
  - now apply Hnear.
  - intros Hpos Hnt. apply nearest_is_half_up; auto.
  - unfold st, computeStats, statsOf. cbn [summaries].
    induction (projects d) as [|p ps IH]; cbn [map]; constructor; trivial.
    cbn. repeat split; trivial.
    destruct (p_progress p) as [q|]; cbn; [|reflexivity].
    destruct (Qeq_bool q 0) eqn:E; [|reflexivity].
    apply Qeq_bool_iff in E. now rewrite E.
Qed.

Lemma computeStats_snapshot_witness :
  let d := demo_db 3 1 in
  length_Z (tasks d) < 2 ^ 32 /\
  overallCompletion (computeStats d) = round_half_up (100 * completedTasks d) (length_Z (tasks d)).
Proof.
  intros d.
  assert (H : length_Z (tasks d) < 2 ^ 32) by (vm_compute; reflexivity).
  split; [exact H|].
  apply (computeStats_snapshot d H).
  - vm_compute; reflexivity.
  - unfold halfway. vm_compute. intros [_ E]. discriminate E.
Defined.

(** C1, the claim at a concrete store: with 23 of 40 tasks completed the
    double [(23 / 40) * 100] is [57.49999999999999] and the snapshot
    reports [57], while [100 * 23 / 40 = 57.5] rounds to [58], whether
    halfway cases go upwards or to the even neighbour. *)
Lemma computeStats_rounding_counterexample :
  let d := demo_db 23 17 in
  let exact := 100 * completedTasks d in
  overallCompletion (computeStats d) = 57 /\
  round_half_up exact (totalTasks (computeStats d)) = 58 /\
  round_half_even exact (totalTasks (computeStats d)) = 58.
Proof. vm_compute. repeat split. Qed.

(** Other halfway cases do go upwards: 1 of 8 is [12.5] and reads [13]. *)
Example ties_go_up_too :
  overallCompletion (computeStats (demo_db 1 7)) = 13.
Proof. vm_compute. reflexivity. Qed.
End StatsAggregator.

(* ================================================================== *)
(** * Logs and broadcasts *)

Lemma since_emit (es : list Event) (s : Server) : since s (emit es s) = es.
Proof.
  unfold since, emit. cbn [log].
  rewrite skipn_app, skipn_all, Nat.sub_diag. reflexivity.
Qed.

Lemma since_refl (s : Server) : since s s = [].
Proof. unfold since. apply skipn_all. Qed.

Lemma broadcasts_app (l1 l2 : list Event) :
  broadcasts (l1 ++ l2) = (broadcasts l1 + broadcasts l2)%nat.
Proof. unfold broadcasts. now rewrite filter_app, length_app. Qed.

Lemma broadcasts_fanout (msg : Json) (cs : list Client) :
  broadcasts (fanout msg cs) = 0%nat.
Proof.
  unfold broadcasts, fanout.
  induction (filter ready cs) as [|c l IH]; cbn; trivial.
Qed.

Lemma broadcastStats_log (s : Server) :
  log (broadcastStats s) =
  log s ++ EBroadcast :: fanout (stats_message (computeStats (db s))) (clients s).
Proof. reflexivity. Qed.

Lemma broadcastStats_once (s : Server) :
  broadcasts (log (broadcastStats s)) = S (broadcasts (log s)).
Proof.
  rewrite broadcastStats_log, broadcasts_app. cbn [app].
  change (EBroadcast :: ?l) with ([EBroadcast] ++ l).
  rewrite broadcasts_app, broadcasts_fanout. cbn. lia.
Qed.

(** A checked handler either answers with a redirect after exactly one
    broadcast, or answers with an error page and leaves the server as it
    was. *)
Lemma run_outcome (m : Mutation) (now : Z) (req : Request) (s : Server) :
  (exists loc d, run m now req s = (Redirect loc, broadcastStats (with_db d s)))
  \/ (exists code view msg, run m now req s = (Render code view msg, s)).
Proof.
  destruct m as [|i|i]; cbn [run];
    unfold Checked.createProject, Checked.createTask, Checked.toggleTask, errorHandler.
  - destruct (truthy _); cbn [negb]; [left|right]; eauto.
    destruct (Store.insertProject _ _ _ _ _) as [p d]. eauto.
  - destruct (truthy _); cbn [negb]; [|right; eauto].
    destruct i as [pid|raw]; [|right; eauto].
    destruct (Store.findProject pid (db s)) as [p|]; [left|right; eauto].
    destruct (Store.insertTask _ _ _ _) as [t d]. eauto.
  - destruct i as [tid|raw]; [|right; eauto].
    destruct (Store.findTask tid (db s)) as [t|]; [left|right]; eauto.
Qed.

(** The sibling routes: a checked mutation that succeeds calls
    [broadcastStats] exactly once. *)
Lemma run_success_broadcasts_once (m : Mutation) now req s loc s' :
  run m now req s = (Redirect loc, s') ->
  broadcasts (log s') = S (broadcasts (log s)).
Proof.
  intros E. destruct (run_outcome m now req s) as [(l & d & H)|(c & v & e & H)];
    rewrite H in E; inversion E; subst.
  now rewrite broadcastStats_once.
Qed.

(* ================================================================== *)
(** * Mutations and broadcasts *)

(** C2 (defect).  The JSON API route creates a project and never calls
    [broadcastStats]: an authenticated [POST /api/projects] with a title
    stores the project and answers with it, while the log shows no
    broadcast and the open connection is sent nothing.  The same body
    posted to [/projects] broadcasts once. *)
Theorem api_createProject_skips_broadcast :
  let req := demo_request POST RApiProjects (Some "B"%string) in
  let '(res, s') := app demo_secret 2000 req demo_server in
  let '(res2, s2) := app demo_secret 2000
                       (demo_request POST RProjects (Some "B"%string)) demo_server in
  (exists p, res = JsonProject p /\ projects (db s') = [demo_project; p]) /\
  broadcasts (log s') = 0%nat /\
  inbox 1%nat (log s') = [] /\
  res2 = Redirect (ToPath "/projects") /\
  broadcasts (log s2) = 1%nat /\
  List.length (inbox 1%nat (log s2)) = 1%nat.
Proof.
  vm_compute. split; [eexists; split; reflexivity|]. repeat split.
Qed.

(** The API route leaves the log alone on every input. *)
Lemma api_createProject_log (now : Z) (req : Request) (s : Server) :
  log (snd (Api.createProject now req s)) = log s.
Proof.
  unfold Api.createProject. destruct (truthy _); reflexivity.
Qed.

(** The checked form routes report their failures: a checked mutation
    that fails with a validation error or a not-found error answers at
    once with the 400 / 404 error page and
    leaves the whole server state as it was: the store is unchanged and
    the log gained neither a broadcast nor a send. *)
Theorem failed_mutation_changes_nothing
    (m : Mutation) (now : Z) (req : Request) (s : Server) (code : Z) :
  Fails m req (db s) code ->
  exists view msg s',
    run m now req s = (Render code view msg, s') /\
    s' = s /\ db s' = db s /\
    since s s' = [] /\
    broadcasts (log s') = broadcasts (log s) /\
    (code = 400 \/ code = 404)%Z.
Proof.
  intros F.
  assert (G : exists view msg, run m now req s = (Render code view msg, s)
                               /\ (code = 400 \/ code = 404)%Z).
  { inversion F; subst; cbn [run];
      unfold Checked.createProject, Checked.createTask, Checked.toggleTask.
    - rewrite H. cbn [negb]. eauto.
    - rewrite H. cbn [negb]. eauto.
    - rewrite H, H0. cbn [negb]. eauto.
    - rewrite H. eauto. }
  destruct G as (view & msg & E & Hc).
  exists view, msg, s. rewrite since_refl. repeat split; trivial.
Qed.

Lemma failed_mutation_changes_nothing_witness :
  exists view msg s',
    run (ToggleTask (Oid 9%N)) 2000 (demo_request POST (RTaskToggle (Oid 9%N)) None)
        demo_server = (Render 404 view msg, s') /\
    s' = demo_server /\ db s' = db demo_server /\
    since demo_server s' = [] /\
    broadcasts (log s') = broadcasts (log demo_server) /\
    (404 = 400 \/ 404 = 404)%Z.
Proof.
  apply (@failed_mutation_changes_nothing (ToggleTask (Oid 9%N)) 2000 _ demo_server 404).
  apply missing_task. vm_compute. reflexivity.
Defined.

(** C4 (defect).  A failed creation through the JSON API route is not
    reported to the caller: an authenticated [POST /api/projects]
    without a title fails validation, and since the route neither
    checks its input nor catches, the handler's promise rejects with no
    response of its own; store and log are as they were.  The same body
    posted to the sibling route [/projects] is answered at once with the
    400 page. *)
Theorem api_createProject_failure_unreported :
  app demo_secret 2000 (demo_request POST RApiProjects None) demo_server
  = (Unhandled "ValidationError", demo_server) /\
  app demo_secret 2000 (demo_request POST RProjects None) demo_server
  = (Render 400 "new-project" "Project name is required.", demo_server).
Proof. split; vm_compute; reflexivity. Qed.

(** The unchecked variant: a handler either redirects after one
    broadcast, or its promise rejects and the server is as it was. *)
Lemma unchecked_outcome (now : Z) (i : IdParam) (req : Request) (s : Server) :
  forall h, In h [Unchecked.createProject now; Unchecked.createTask now i;
                  Unchecked.toggleTask now i] ->
  (exists loc d, h req s = (Redirect loc, broadcastStats (with_db d s)))
  \/ (exists err, h req s = (Unhandled err, s)).
Proof.
  intros h [<-|[<-|[<-|[]]]];
    unfold Unchecked.createProject, Unchecked.createTask, Unchecked.toggleTask.
  - destruct (truthy _); cbn [negb]; [left|right]; eauto.
    destruct (Store.insertProject _ _ _ _ _) as [p d]. eauto.
  - destruct i as [pid|raw]; [|right; eauto].
    destruct (truthy _); cbn [negb]; [left|right]; eauto.
    destruct (Store.insertTask _ _ _ _) as [t d]. eauto.
  - destruct i as [tid|raw]; [|right; eauto].
    destruct (Store.findTask tid (db s)) as [t|]; [left|right]; eauto.
Qed.

(* ================================================================== *)
(** * Fan-out *)

Lemma fanout_skips (msg : Json) (before after : list Client) (c : Client) :
  ready c = false ->
  fanout msg (before ++ c :: after) = fanout msg (before ++ after).
Proof.
  intros H. unfold fanout. rewrite !filter_app. cbn [filter]. now rewrite H.
Qed.

Lemma since_broadcastStats (s : Server) :
  since s (broadcastStats s) =
  EBroadcast :: fanout (stats_message (computeStats (db s))) (clients s).
Proof. unfold broadcastStats. apply since_emit. Qed.

(** The response of a checked mutation does not depend on the registry. *)
Lemma run_response_ignores_registry (m : Mutation) now req s (cs : list Client) :
  fst (run m now req (with_clients cs s)) = fst (run m now req s).
Proof.
  destruct m as [|i|i]; cbn [run];
    unfold Checked.createProject, Checked.createTask, Checked.toggleTask.
  - destruct (truthy _); reflexivity.
  - destruct (truthy _); cbn [negb]; trivial.
    destruct i; trivial. cbn [with_clients db].
    destruct (Store.findProject _ _); reflexivity.
  - destruct i; trivial. cbn [with_clients db].
    destruct (Store.findTask _ _); reflexivity.
Qed.

(** C3, the claim at a concrete registry: a connection that is not ready
    is still registered after the broadcast that skipped it. *)
Lemma broadcast_keeps_unready_client :
  let stale := mkClient 0%nat CLOSING in
  ready stale = false /\
  In stale (clients demo_server) /\
  In stale (clients (broadcastStats demo_server)).
Proof. vm_compute. auto. Qed.

(** C3 as the code has it.  [broadcastStats] never writes the registry or
    the store; a connection that is not ready is passed over, and the
    sends of that broadcast are exactly those of the registry without it,
    so every ready connection is still served; the response of the
    mutation is the same whatever the registry holds. *)
Theorem broadcast_skips_unready
    (s : Server) (before after : list Client) (c : Client) :
  clients s = before ++ c :: after ->
  ready c = false ->
  clients (broadcastStats s) = clients s /\
  db (broadcastStats s) = db s /\
  since s (broadcastStats s) =
    since (with_clients (before ++ after) s)
          (broadcastStats (with_clients (before ++ after) s)) /\
  (forall x, In x (before ++ after) -> ready x = true ->
     In (ESend Fanout (cid x) (stats_message (computeStats (db s))))
        (since s (broadcastStats s))) /\
  (forall m now req,
     fst (run m now req s) = fst (run m now req (with_clients (before ++ after) s))).
Proof.
  intros Hcs Hc. rewrite !since_broadcastStats. cbn [with_clients db clients].
  rewrite Hcs, (fanout_skips _ _ _ _ Hc).
  repeat split; trivial.
  - intros x Hx Hr. right. unfold fanout.
    apply (in_map (fun c0 => ESend Fanout (cid c0) _)).
    apply filter_In. auto.
  - intros m now req. symmetry. apply run_response_ignores_registry.
Qed.

Lemma broadcast_skips_unready_witness :
  clients (broadcastStats demo_server) = clients demo_server /\
  In (ESend Fanout 1%nat (stats_message (computeStats (db demo_server))))
     (since demo_server (broadcastStats demo_server)).
Proof.
  destruct (@broadcast_skips_unready demo_server [] [mkClient 1%nat OPEN]
              (mkClient 0%nat CLOSING) eq_refl eq_refl) as (H1 & _ & _ & H4 & _).
  split; [exact H1|].
  apply (H4 (mkClient 1%nat OPEN)); [left; reflexivity | reflexivity].
Defined.

(** C10.  Within one broadcast every send carries the one message
    encoded from the snapshot of the store, every ready connection is
    sent it, and the message is determined by the store alone: two
    servers with the same store and any two registries send the same
    message to all their connections. *)
Theorem broadcast_payload_uniform (s1 s2 : Server) :
  db s1 = db s2 ->
  let msg := stats_message (computeStats (db s1)) in
  (forall o c m, In (ESend o c m) (since s1 (broadcastStats s1)) ->
     o = Fanout /\ m = msg) /\
  (forall o c m, In (ESend o c m) (since s2 (broadcastStats s2)) ->
     o = Fanout /\ m = msg) /\
  (forall x, In x (clients s1) -> ready x = true ->
     In (ESend Fanout (cid x) msg) (since s1 (broadcastStats s1))).
Proof.
  intros Hdb msg.
  assert (A : forall s o c m, db s = db s1 ->
            In (ESend o c m) (since s (broadcastStats s)) -> o = Fanout /\ m = msg).
  { intros s o c m E H. rewrite since_broadcastStats, E in H.
    destruct H as [H|H]; [discriminate|].
    unfold fanout in H. apply in_map_iff in H.
    destruct H as (x & Hx & _). inversion Hx. auto. }
  split; [|split].
  - intros o c m. now apply A.
  - intros o c m. apply A. now symmetry.
  - intros x Hx Hr. rewrite since_broadcastStats. right.
    unfold fanout. apply (in_map (fun c0 => ESend Fanout (cid c0) _)).
    apply filter_In. auto.
Qed.

Lemma broadcast_payload_uniform_witness :
  let s := with_clients [mkClient 5%nat OPEN; mkClient 6%nat CLOSING] demo_server in
  db s = db demo_server /\
  In (ESend Fanout 5%nat (stats_message (computeStats (db s))))
     (since s (broadcastStats s)).
Proof.
  intros s. split; [reflexivity|].
  apply (proj2 (proj2 (@broadcast_payload_uniform s demo_server eq_refl))
           (mkClient 5%nat OPEN)); [left; reflexivity | reflexivity].
Defined.

(* ================================================================== *)
(** * Session Gate *)

Lemma verify_sound (tok : Jwt.Token) (secret : string) (now : Z) (p : Jwt.Payload) :
  Jwt.verify tok secret now = Some p ->
  tok = Jwt.Jws p (Jwt.HS256 secret p) /\ (now < Jwt.exp p)%Z.
Proof.
  destruct tok as [body sig|raw]; cbn [Jwt.verify]; [|discriminate].
  destruct (Jwt.Signature_eq_dec sig (Jwt.HS256 secret body)) as [E|]; [|discriminate].
  destruct (Z.leb_spec (Jwt.exp body) now) as [|L]; [discriminate|].
  intros Hv. inversion Hv. subst. auto.
Qed.

Lemma verify_signed (body : Jwt.Payload) (secret : string) (now : Z) :
  (now < Jwt.exp body)%Z ->
  Jwt.verify (Jwt.Jws body (Jwt.HS256 secret body)) secret now = Some body.
Proof.
  intros H. cbn [Jwt.verify].
  destruct (Jwt.Signature_eq_dec _ _) as [_|N]; [|now elim N].
  destruct (Z.leb_spec (Jwt.exp body) now); [lia|reflexivity].
Qed.

Lemma authenticate_verify (secret : string) (now : Z) (req : Request) (tok : Jwt.Token) :
  token req = Some tok ->
  authenticate secret now req = Jwt.verify tok secret (seconds now).
Proof.
  intros E. unfold authenticate, authMiddleware. rewrite E.
  destruct (token_present (Some tok)) eqn:P; cbn [negb].
  - destruct (Jwt.verify tok secret (seconds now)); reflexivity.
  - destruct tok as [b sg|raw]; [discriminate|]. reflexivity.
Qed.

(** C7.  [authMiddleware] passes every request on: whatever the cookie,
    the outcome is [next()] with [req.user] set, and [req.user] is [null]
    when the cookie is missing, empty, malformed, signed with another
    key, or expired.  Rejection is left to [requireAuth], which redirects
    exactly the requests without an identity. *)
Theorem authMiddleware_never_rejects (secret : string) (now : Z) (req : Request) :
  (exists u, authMiddleware secret now req = Next (with_user u req)) /\
  (token req = None -> authenticate secret now req = None) /\
  (forall raw, token req = Some (Jwt.Malformed raw) ->
     authenticate secret now req = None) /\
  (forall body sig, token req = Some (Jwt.Jws body sig) ->
     sig <> Jwt.HS256 secret body -> authenticate secret now req = None) /\
  (forall body sig, token req = Some (Jwt.Jws body sig) ->
     (Jwt.exp body <= seconds now)%Z -> authenticate secret now req = None) /\
  (user req = None -> requireAuth req = Respond (Redirect (ToPath "/login"))) /\
  (user req <> None -> requireAuth req = Next req).
Proof.
  repeat split.
  - unfold authMiddleware. destruct (token req) as [tok|]; [|eauto].
    destruct (negb _); [eauto|]. destruct (Jwt.verify _ _ _); eauto.
  - intros E. unfold authenticate, authMiddleware. now rewrite E.
  - intros raw E. now rewrite (authenticate_verify _ _ _ E).
  - intros body sig E N. rewrite (authenticate_verify _ _ _ E). cbn [Jwt.verify].
    destruct (Jwt.Signature_eq_dec _ _); [contradiction|reflexivity].
  - intros body sig E X. rewrite (authenticate_verify _ _ _ E). cbn [Jwt.verify].
    destruct (Jwt.Signature_eq_dec _ _); [|reflexivity].
    destruct (Z.leb_spec (Jwt.exp body) (seconds now)); [reflexivity|lia].
  - intros E. unfold requireAuth. now rewrite E.
  - intros N. unfold requireAuth. destruct (user req); [reflexivity|now elim N].
Qed.

Lemma authMiddleware_never_rejects_witness :
  let expired := request_with (Some (issueToken demo_secret 0 ann)) in
  let later := (8 * 24 * 60 * 60 * 1000)%Z in
  authenticate demo_secret later expired = None /\
  requireAuth (with_user None expired) = Respond (Redirect (ToPath "/login")).
Proof.
  intros expired later.
  destruct (authMiddleware_never_rejects demo_secret later expired)
    as (_ & _ & _ & _ & Hexp & _).
  destruct (authMiddleware_never_rejects demo_secret later (with_user None expired))
    as (_ & _ & _ & _ & _ & Hreq & _).
  split.
  - eapply Hexp; [reflexivity|]. vm_compute. discriminate.
  - apply Hreq. reflexivity.
Defined.

(** C8.  [GET /health] answers [200 "OK"] and touches nothing, whatever
    cookie, body or headers come with the request. *)
Theorem health_always_ok (secret : string) (now : Z) (s : Server)
    (tok : option Jwt.Token) (b : Body) (ref : option string) (u : option Jwt.Payload) :
  app secret now (mkRequest GET RHealth tok b ref u) s = (Send 200 "OK", s).
Proof.
  unfold app, authMiddleware. cbn [token].
  destruct tok as [t|]; [|reflexivity].
  destruct (negb _); [reflexivity|].
  destruct (Jwt.verify _ _ _); reflexivity.
Qed.

(** C6, the claim at a concrete user: the token that the register and
    login routes of the first variant issue verifies, before its expiry,
    to an identity without name and email. *)
Lemma idOnly_token_loses_name_and_email :
  let tok := issue SignsIdOnly demo_secret 1000 ann in
  exists p,
    authenticate demo_secret 2000 (request_with (Some tok)) = Some p /\
    Jwt.sub_name p = None /\ Jwt.sub_email p = None /\
    ~ identity_equals ann p.
Proof.
  eexists. split; [vm_compute; reflexivity|].
  cbn. repeat split. intros (_ & H & _). discriminate H.
Qed.

(** C6 as the code has it.  Before the seven days are over a token
    verifies to the subject id of its user, together with name and email
    when the issuing route signed them; from the expiry instant on, and
    for every tampered token, there is no identity. *)
Theorem session_token_roundtrip
    (k : Issuer) (secret : string) (issued now : Z) (u : User) :
  let tok := issue k secret issued u in
  ((seconds now < seconds issued + Jwt.seven_days)%Z ->
     exists p, authenticate secret now (request_with (Some tok)) = Some p /\
               Jwt.sub_id p = u_id u /\
               Jwt.exp p = (seconds issued + 7 * 24 * 60 * 60)%Z /\
               (k = SignsIdNameEmail -> identity_equals u p)) /\
  ((seconds issued + Jwt.seven_days <= seconds now)%Z ->
     authenticate secret now (request_with (Some tok)) = None) /\
  (forall tok', tampered tok tok' ->
     authenticate secret now (request_with (Some tok')) = None).
Proof.
  intros tok. repeat split.
  - intros Hlt.
    rewrite (@authenticate_verify secret now (request_with (Some tok)) tok eq_refl).
    destruct k; unfold tok, issue, issueToken, issueToken_idOnly, Jwt.sign;
      (rewrite verify_signed by (cbn [Jwt.exp]; lia));
      eexists; (split; [reflexivity|]); cbn; repeat split; trivial; discriminate.
  - intros Hge.
    rewrite (@authenticate_verify secret now (request_with (Some tok)) tok eq_refl).
    destruct k; unfold tok, issue, issueToken, issueToken_idOnly, Jwt.sign;
      cbn [Jwt.verify Jwt.exp];
      (destruct (Jwt.Signature_eq_dec _ _); [|reflexivity]);
      (destruct (Z.leb_spec (seconds issued + Jwt.seven_days) (seconds now));
       [reflexivity|lia]).
  - intros tok' T.
    rewrite (@authenticate_verify secret now (request_with (Some tok')) tok' eq_refl).
    destruct (Jwt.verify tok' secret (seconds now)) as [p|] eqn:V; [|reflexivity].
    apply verify_sound in V. destruct V as [V _]. exfalso.
    assert (I : exists body, tok = Jwt.Jws body (Jwt.HS256 secret body)).
    { destruct k; eexists; reflexivity. }
    destruct I as [body I]. rewrite I, V in T.
    inversion T; subst; congruence.
Qed.

Lemma session_token_roundtrip_witness :
  exists p,
    authenticate demo_secret 2000
      (request_with (Some (issue SignsIdNameEmail demo_secret 1000 ann))) = Some p /\
    Jwt.sub_id p = u_id ann /\
    Jwt.exp p = (seconds 1000 + 7 * 24 * 60 * 60)%Z /\
    (SignsIdNameEmail = SignsIdNameEmail -> identity_equals ann p).
Proof.
  apply (proj1 (session_token_roundtrip SignsIdNameEmail demo_secret 1000 2000 ann)).
  vm_compute. reflexivity.
Defined.

(* ================================================================== *)
(** * Task completion toggle *)

Lemma find_replaceTask_same (t' : TaskDoc) (l : list TaskDoc) (t : TaskDoc) :
  find (fun x => N.eqb (t_id x) (t_id t')) l = Some t ->
  find (fun x => N.eqb (t_id x) (t_id t')) (Store.replaceTask t' l) = Some t'.
Proof.
  induction l as [|x r IH]; cbn [find Store.replaceTask]; [discriminate|].
  destruct (N.eqb (t_id x) (t_id t')) eqn:E; cbn [find].
  - now rewrite N.eqb_refl.
  - rewrite E. exact IH.
Qed.

Lemma find_replaceTask_other (t' : TaskDoc) (l : list TaskDoc) (j : ObjectId) :
  j <> t_id t' ->
  find (fun x => N.eqb (t_id x) j) (Store.replaceTask t' l) =
  find (fun x => N.eqb (t_id x) j) l.
Proof.
  intros N. induction l as [|x r IH]; cbn [find Store.replaceTask]; trivial.
  destruct (N.eqb (t_id x) (t_id t')) eqn:E; cbn [find].
  - apply N.eqb_eq in E.
    destruct (N.eqb_spec (t_id x) j) as [F|_]; [congruence|].
    destruct (N.eqb_spec (t_id t') j) as [F|_]; [congruence|]. reflexivity.
  - destruct (N.eqb (t_id x) j); trivial.
Qed.

Lemma findTask_id (i : ObjectId) (d : Db) (t : TaskDoc) :
  Store.findTask i d = Some t -> t_id t = i.
Proof.
  unfold Store.findTask. intros H. apply find_some in H.
  now apply N.eqb_eq.
Qed.

(** The store after a toggle of an existing task, in either variant. *)
Lemma toggleTask_store (now : Z) (tid : ObjectId) (req : Request) (s : Server) (t : TaskDoc) :
  Store.findTask tid (db s) = Some t ->
  db (snd (Checked.toggleTask now (Oid tid) req s)) = Store.saveTask (toggled now t) (db s) /\
  db (snd (Unchecked.toggleTask now (Oid tid) req s)) = Store.saveTask (toggled now t) (db s).
Proof.
  intros H. unfold Checked.toggleTask, Unchecked.toggleTask. rewrite H. split; reflexivity.
Qed.

(** C9, the claim at a concrete task: the toggle also rewrites
    [updatedAt]. *)
Lemma toggle_refreshes_updatedAt :
  let s' := snd (Checked.toggleTask 2000 (Oid 2%N)
                   (demo_request POST (RTaskToggle (Oid 2%N)) None) demo_server) in
  Store.findTask 2%N (db demo_server) = Some demo_open_task /\
  exists t', Store.findTask 2%N (db s') = Some t' /\
             t_updatedAt t' = 2000%Z /\
             t_updatedAt t' <> t_updatedAt demo_open_task.
Proof.
  split; [reflexivity|]. eexists. split; [vm_compute; reflexivity|].
  split; [reflexivity|]. vm_compute. discriminate.
Qed.

(** C9 as the code has it.  In both variants, toggling an existing task
    negates [completed], stamps [updatedAt] with the clock and keeps
    every other field; no other task and no project changes; a second
    toggle of the same task restores [completed]. *)
Theorem toggle_negates_completed
    (variant : bool) (now now2 : Z) (tid : ObjectId) (req req2 : Request)
    (s : Server) (t : TaskDoc) :
  let toggle := if variant then Checked.toggleTask else Unchecked.toggleTask in
  let s1 := snd (toggle now (Oid tid) req s) in
  let s2 := snd (toggle now2 (Oid tid) req2 s1) in
  Store.findTask tid (db s) = Some t ->
  (exists t1, Store.findTask tid (db s1) = Some t1 /\
     t_completed t1 = negb (t_completed t) /\
     t_id t1 = t_id t /\ t_title t1 = t_title t /\
     t_projectId t1 = t_projectId t /\ t_createdAt t1 = t_createdAt t /\
     t_updatedAt t1 = now) /\
  (forall j, j <> tid -> Store.findTask j (db s1) = Store.findTask j (db s)) /\
  List.length (tasks (db s1)) = List.length (tasks (db s)) /\
  projects (db s1) = projects (db s) /\
  (exists t2, Store.findTask tid (db s2) = Some t2 /\
     t_completed t2 = t_completed t /\
     t_id t2 = t_id t /\ t_title t2 = t_title t /\
     t_projectId t2 = t_projectId t /\ t_createdAt t2 = t_createdAt t).
Proof.
  intros toggle s1 s2 H.
  pose proof (findTask_id _ _ H) as Hid.
  assert (E1 : db s1 = Store.saveTask (toggled now t) (db s)).
  { unfold s1, toggle. destruct variant; now apply toggleTask_store. }
  assert (F1 : Store.findTask tid (db s1) = Some (toggled now t)).
  { rewrite E1. unfold Store.findTask, Store.saveTask. cbn [tasks].
    rewrite <- Hid. change (t_id t) with (t_id (toggled now t)).
    eapply find_replaceTask_same. cbn [toggled t_id]. rewrite Hid. exact H. }
  assert (E2 : db s2 = Store.saveTask (toggled now2 (toggled now t)) (db s1)).
  { unfold s2, toggle. destruct variant; now apply toggleTask_store. }
  split; [|split; [|split; [|split]]].
  - exists (toggled now t). repeat split; trivial.
  - intros j Hj. rewrite E1. unfold Store.findTask, Store.saveTask. cbn [tasks].
    apply find_replaceTask_other. cbn [toggled t_id]. congruence.
  - rewrite E1. unfold Store.saveTask. cbn [tasks].
    induction (tasks (db s)) as [|x r IH]; cbn [Store.replaceTask]; trivial.
    destruct (N.eqb _ _); cbn [List.length]; congruence.
  - rewrite E1. reflexivity.
  - exists (toggled now2 (toggled now t)). split.
    + rewrite E2. unfold Store.findTask, Store.saveTask. cbn [tasks].
      rewrite <- Hid. change (t_id t) with (t_id (toggled now2 (toggled now t))).
      eapply find_replaceTask_same. cbn [toggled t_id]. rewrite Hid. exact F1.
    + cbn [toggled t_completed t_id t_title t_projectId t_createdAt].
      rewrite Bool.negb_involutive. repeat split.
Qed.

Lemma toggle_negates_completed_witness :
  let req := demo_request POST (RTaskToggle (Oid 2%N)) None in
  let s1 := snd (Checked.toggleTask 2000 (Oid 2%N) req demo_server) in
  let s2 := snd (Checked.toggleTask 3000 (Oid 2%N) req s1) in
  exists t2, Store.findTask 2%N (db s2) = Some t2 /\
     t_completed t2 = t_completed demo_open_task /\
     t_id t2 = t_id demo_open_task /\ t_title t2 = t_title demo_open_task /\
     t_projectId t2 = t_projectId demo_open_task /\
     t_createdAt t2 = t_createdAt demo_open_task.
Proof.
  intros req s1 s2.
  exact (proj2 (proj2 (proj2 (proj2
    (@toggle_negates_completed true 2000 3000 2%N req req demo_server
       demo_open_task eq_refl))))).
Defined.

(* ================================================================== *)
(** * Connection handshake on the event loop *)

Module HandshakeFacts.
Import EventLoop Handshaking.

Lemma inbox_app c l1 l2 : inbox c (l1 ++ l2) = inbox c l1 ++ inbox c l2.
Proof. unfold inbox. apply flat_map_app. Qed.

Lemma handshake_sends_app c l1 l2 :
  handshake_sends c (l1 ++ l2) = handshake_sends c l1 ++ handshake_sends c l2.
Proof. unfold handshake_sends. now rewrite inbox_app, flat_map_app. Qed.

Lemma awaiting_app c p1 p2 :
  awaiting c (p1 ++ p2) = (awaiting c p1 + awaiting c p2)%nat.
Proof. unfold awaiting. now rewrite filter_app, length_app. Qed.

Lemma inbox_broadcasts c n : inbox c (repeat EBroadcast n) = [].
Proof. induction n; cbn; trivial. Qed.

Lemma awaiting_fanouts c n : awaiting c (repeat (mkPending JFanout None) n) = 0%nat.
Proof. induction n; cbn; trivial. Qed.

Lemma inbox_fanout_stranger c msg cs :
  Forall (fun x => cid x <> c) cs -> inbox c (fanout msg cs) = [].
Proof.
  unfold fanout. induction 1 as [|x r Hx _ IH]; cbn [filter map]; trivial.
  destruct (ready x); cbn [map]; trivial.
  cbn [inbox flat_map]. apply Nat.eqb_neq in Hx. rewrite Hx. exact IH.
Qed.

Lemma handshake_sends_fanout c msg cs : handshake_sends c (fanout msg cs) = [].
Proof.
  unfold handshake_sends, fanout.
  induction (filter ready cs) as [|x r IH]; cbn [map inbox flat_map]; trivial.
  destruct (Nat.eqb (cid x) c); cbn [app flat_map]; exact IH.
Qed.

Lemma inbox_send_other o c c' m : c' <> c -> inbox c [ESend o c' m] = [].
Proof. intros H. cbn. apply Nat.eqb_neq in H. now rewrite H. Qed.

Lemma inbox_send_same o c m : inbox c [ESend o c m] = [(o, m)].
Proof. cbn. now rewrite Nat.eqb_refl. Qed.

Lemma awaiting_one_other c c' f : c' <> c -> awaiting c [mkPending (JHandshake c') f] = 0%nat.
Proof. intros H. cbn. apply Nat.eqb_neq in H. now rewrite H. Qed.

Lemma awaiting_one_same c f : awaiting c [mkPending (JHandshake c) f] = 1%nat.
Proof. cbn. now rewrite Nat.eqb_refl. Qed.

Lemma awaiting_fetch c before j f g after :
  awaiting c (before ++ mkPending j f :: after) =
  awaiting c (before ++ mkPending j g :: after).
Proof.
  rewrite !awaiting_app. f_equal.
  unfold awaiting. cbn [filter job].
  destruct j as [c'|]; [destruct (Nat.eqb c' c)|]; reflexivity.
Qed.

Lemma initial_invariant : invariant initial.
Proof.
  constructor; cbn.
  - constructor.
  - auto.
  - intros c H. lia.
Qed.

Lemma awaiting_split c before j f after :
  awaiting c (before ++ mkPending j f :: after) =
  (awaiting c before + awaiting c [mkPending j f] + awaiting c after)%nat.
Proof.
  change (mkPending j f :: after) with ([mkPending j f] ++ after).
  rewrite !awaiting_app. lia.
Qed.

(** The handshake status of [c] survives any step that adds only
    fan-out traffic to its inbox and keeps its handler suspended or
    finished as it was. *)
Lemma handshake_ok_extend (w w' : World) (c : nat) (extra : list (Origin * Json)) :
  inbox c (log (server w')) = inbox c (log (server w)) ++ extra ->
  flat_map (fun om : Origin * Json =>
              match om with (Handshake, m) => [m] | (Fanout, _) => [] end) extra = [] ->
  awaiting c (pending w') = awaiting c (pending w) ->
  handshake_ok w c -> handshake_ok w' c.
Proof.
  intros Hin Hex Haw [[rest Hhd] Hst]. unfold handshake_ok.
  assert (Hs : handshake_sends c (log (server w')) = handshake_sends c (log (server w))).
  { unfold handshake_sends. rewrite Hin, flat_map_app, Hex. apply app_nil_r. }
  rewrite Hin, Hs, Haw, Hhd. split; [|exact Hst].
  exists (rest ++ extra). reflexivity.
Qed.

Lemma accept_invariant w : invariant w -> invariant (accept w).
Proof.
  intros [Hc Hf Hp]. constructor; cbn [accept server pending nextCid clients log].
  - apply Forall_app. split.
    + eapply Forall_impl; [|exact Hc]. cbn. intros; lia.
    + repeat constructor.
  - intros c Hle. destruct (Hf c ltac:(lia)) as [Hi Ha].
    rewrite inbox_app, awaiting_app, Hi, Ha.
    rewrite inbox_send_other, awaiting_one_other by lia. auto.
  - intros c Hlt. destruct (Nat.eq_dec c (nextCid w)) as [->|Hne].
    + destruct (Hf (nextCid w) (Nat.le_refl _)) as [Hi Ha].
      unfold handshake_ok, handshake_sends.
      cbn [accept server pending log].
      rewrite inbox_app, awaiting_app, Hi, Ha, inbox_send_same, awaiting_one_same.
      split; [eexists; reflexivity|]. left. split; reflexivity.
    + apply (@handshake_ok_extend w (accept w) c []); cbn [accept server pending log].
      * rewrite inbox_app, inbox_send_other by lia. reflexivity.
      * reflexivity.
      * rewrite awaiting_app, awaiting_one_other by lia. lia.
      * apply Hp. lia.
Qed.

Lemma request_invariant w secret now req :
  invariant w -> invariant (request secret now req w).
Proof.
  intros [Hc Hf Hp].
  constructor; cbn [request server pending nextCid clients log]; trivial.
  - intros c Hle. destruct (Hf c Hle) as [Hi Ha].
    rewrite inbox_app, awaiting_app, inbox_broadcasts, awaiting_fanouts, Hi, Ha. auto.
  - intros c Hlt.
    apply (@handshake_ok_extend w (request secret now req w) c []);
      cbn [request server pending log]; auto.
    + now rewrite inbox_app, inbox_broadcasts.
    + rewrite awaiting_app, awaiting_fanouts. lia.
Qed.

Lemma resume_invariant w before j st after :
  pending w = before ++ mkPending j (Some st) :: after ->
  invariant w ->
  invariant (mkWorld (resume j st (server w)) (before ++ after) (nextCid w)).
Proof.
  intros Hpend [Hc Hf Hp].
  assert (Hcount : forall c, awaiting c (pending w) =
            (awaiting c (before ++ after) + awaiting c [mkPending j (Some st)])%nat).
  { intros c. rewrite Hpend, awaiting_split, awaiting_app. lia. }
  destruct j as [c0|].
  - (* the handler of connection c0 sends its snapshot *)
    assert (H0 : awaiting c0 (pending w) = S (awaiting c0 (before ++ after))).
    { rewrite Hcount, awaiting_one_same. lia. }
    assert (Hlt0 : (c0 < nextCid w)%nat).
    { destruct (Nat.lt_ge_cases c0 (nextCid w)) as [|Hge]; trivial.
      destruct (Hf c0 Hge) as [_ Ha]. lia. }
    constructor; cbn [resume emit server pending nextCid clients log]; trivial.
    + intros c Hle. destruct (Hf c Hle) as [Hi Ha].
      rewrite inbox_app, Hi, inbox_send_other by lia.
      split; trivial. specialize (Hcount c). lia.
    + intros c Hlt. destruct (Nat.eq_dec c c0) as [->|Hne].
      * destruct (Hp c0 Hlt0) as [[rest Hhd] [[Hs Ha]|[st' [_ Ha]]]]; [|lia].
        unfold handshake_ok, handshake_sends.
        cbn [resume emit server pending log].
        rewrite inbox_app, flat_map_app, inbox_send_same, Hhd.
        split; [eexists; reflexivity|]. right. exists st.
        unfold handshake_sends in Hs. rewrite Hhd in Hs. rewrite Hs.
        split; [reflexivity|lia].
      * apply (@handshake_ok_extend w _ c []);
          cbn [resume emit server pending log]; auto.
        -- rewrite inbox_app, inbox_send_other by auto. reflexivity.
        -- specialize (Hcount c). rewrite awaiting_one_other in Hcount by auto. lia.
  - (* a broadcast fans out *)
    assert (Hsame : forall c, awaiting c (before ++ after) = awaiting c (pending w)).
    { intros c. rewrite Hcount. cbn. lia. }
    constructor; cbn [resume emit server pending nextCid clients log]; trivial.
    + intros c Hle. destruct (Hf c Hle) as [Hi Ha].
      rewrite inbox_app, Hi, Hsame, inbox_fanout_stranger; auto.
      eapply Forall_impl; [|exact Hc]. cbn. intros; lia.
    + intros c Hlt.
      apply (@handshake_ok_extend w _ c
               (inbox c (fanout (stats_message st) (clients (server w)))));
        cbn [resume emit server pending log]; auto.
      * apply inbox_app.
      * apply handshake_sends_fanout.
Qed.

Lemma step_invariant w w' : step w w' -> invariant w -> invariant w'.
Proof.
  intros S I. destruct S.
  - now apply accept_invariant.
  - now apply request_invariant.
  - destruct I as [Hc Hf Hp]. constructor; cbn [server pending nextCid]; trivial.
    + intros c Hle. destruct (Hf c Hle) as [Hi Ha]. split; trivial.
      rewrite <- Ha, H. apply awaiting_fetch.
    + intros c Hlt. apply (@handshake_ok_extend w _ c []); cbn [server pending]; auto.
      * now rewrite app_nil_r.
      * rewrite H. apply awaiting_fetch.
  - now apply resume_invariant.
  - destruct I as [Hc Hf Hp]. constructor; [|exact Hf|exact Hp].
    cbn [server nextCid clients]. unfold set_state.
    apply Forall_map. eapply Forall_impl; [|exact Hc].
    cbn. intros x Hx. destruct (Nat.eqb_spec (cid x) c); cbn [cid]; lia.
  - destruct I as [Hc Hf Hp]. constructor; [|exact Hf|exact Hp].
    cbn [server nextCid clients]. unfold drop_client.
    apply Forall_forall. intros x Hx.
    apply filter_In in Hx. rewrite Forall_forall in Hc. now apply Hc.
Qed.

Lemma reachable_invariant w : reachable w -> invariant w.
Proof.
  induction 1 as [|w w' _ IH S].
  - exact initial_invariant.
  - exact (step_invariant S IH).
Qed.




End HandshakeFacts.

Module HandshakeTheorems.
Import EventLoop Handshaking HandshakeFacts.

Lemma race_reachable : reachable race6.
Proof.
  apply reach_step with (w := race5).
  apply reach_step with (w := race4).
  apply reach_step with (w := race3).
  apply reach_step with (w := race2).
  apply reach_step with (w := race1).
  apply reach_step with (w := initial).
  - constructor.
  - exact (step_accept initial).
  - exact (step_request race1 "dev-secret-key-change-me" 2000 race_request).
  - exact (step_fetch race2 [mkPending (JHandshake 0) None] JFanout [] eq_refl).
  - exact (step_resume race3 [mkPending (JHandshake 0) None] JFanout
             (computeStats (db (server race2))) [] eq_refl).
  - exact (step_fetch race4 [] (JHandshake 0) [] eq_refl).
  - exact (step_resume race5 [] (JHandshake 0)
             (computeStats (db (server race4))) [] eq_refl).
Qed.

(** A broadcast between greeting and snapshot: the broadcast of a
    project created while the connection handler waits for the store
    reaches the new connection between the two. *)
Lemma broadcast_between_greeting_and_snapshot :
  reachable race6 /\
  awaiting 0 (pending race6) = 0%nat /\
  (exists m,
     inbox 0 (log (server race6)) =
     [(Handshake, info); (Fanout, m); (Handshake, m)] /\
     kind_of m = Some "stats"%string) /\
  ~ greeted_without_interleaving race6 0.
Proof.
  split; [exact race_reachable|]. split; [reflexivity|]. split.
  - eexists. split; vm_compute; reflexivity.
  - intros G. destruct (G eq_refl) as (st & rest & E).
    vm_compute in E. discriminate E.
Qed.





End HandshakeTheorems.

(* ================================================================== *)
(** * Handlers as schedules of the event loop *)

Module Schedules.
Import EventLoop Handshaking.

(** What any request does to registry and log: the registry is kept,
    and the log is kept or extended by one broadcast of the snapshot of
    the store the handler leaves behind. *)
Lemma app_effect (secret : string) (now : Z) (req : Request) (s : Server) :
  let s' := snd (app secret now req s) in
  clients s' = clients s /\
  (log s' = log s \/
   log s' = log s ++ EBroadcast ::
              fanout (stats_message (computeStats (db s'))) (clients s)).
Proof.
  assert (R : forall m rq,
             let s' := snd (run m now rq s) in
             clients s' = clients s /\
             (log s' = log s \/
              log s' = log s ++ EBroadcast ::
                fanout (stats_message (computeStats (db s'))) (clients s))).
  { intros m rq.
    destruct (run_outcome m now rq s) as [(l & d & H)|(c & v & e & H)];
      cbn zeta; rewrite H; cbn [snd]; auto. }
  cbn zeta. unfold app.
  destruct (authMiddleware secret now req) as [req1|r]; [|cbn; auto].
  destruct (method req1), (route req1); cbn [snd]; auto;
    unfold protected; destruct (requireAuth req1) as [rq|r]; cbn [snd]; auto.
  - apply (R CreateProject rq).
  - apply (R (CreateTask i) rq).
  - apply (R (ToggleTask i) rq).
  - split.
    + unfold Api.createProject. destruct (truthy _); reflexivity.
    + left. apply api_createProject_log.
Qed.

Lemma server_eta (s : Server) d cs l :
  db s = d -> clients s = cs -> log s = l -> mkServer d cs l = s.
Proof. intros; subst; now destruct s. Qed.

(** The run-to-completion reading of a handler is one schedule of the
    event loop: the request, then the store's answer, then the
    fan-out, with nothing in between. *)
Lemma request_runs_to_completion (secret : string) (now : Z) (req : Request) (w : World) :
  pending w = [] ->
  exists w', steps w w' /\
             server w' = snd (app secret now req (server w)) /\
             pending w' = [] /\ nextCid w' = nextCid w.
Proof.
  intros Hp.
  pose proof (app_effect secret now req (server w)) as [Hc Hl].
  set (s' := snd (app secret now req (server w))) in *.
  pose (w1 := request secret now req w).
  assert (S1 : step w w1) by constructor.
  destruct Hl as [Hl|Hl].
  - exists w1. split; [econstructor; [exact S1|constructor]|].
    unfold w1, request. fold s'. rewrite Hl, Nat.sub_diag, Hp. cbn.
    repeat split. apply server_eta; [reflexivity | now symmetry |].
    now rewrite app_nil_r.
  - assert (Hn : (broadcasts (log s') - broadcasts (log (server w)) = 1)%nat).
    { rewrite Hl, broadcasts_app.
      change (EBroadcast :: ?l) with ([EBroadcast] ++ l).
      rewrite broadcasts_app, broadcasts_fanout. cbn. lia. }
    assert (P1 : pending w1 = [] ++ mkPending JFanout None :: []).
    { unfold w1, request. fold s'. rewrite Hn, Hp. reflexivity. }
    pose proof (step_fetch w1 [] JFanout [] P1) as S2.
    set (w2 := mkWorld (server w1)
                 ([] ++ mkPending JFanout (Some (computeStats (db (server w1)))) :: [])
                 (nextCid w1)) in S2.
    pose proof (step_resume w2 [] JFanout (computeStats (db (server w1))) [] eq_refl) as S3.
    eexists. split.
    + econstructor; [exact S1|]. econstructor; [exact S2|].
      econstructor; [exact S3|constructor].
    + cbn [server pending nextCid app]. repeat split.
      unfold w2, w1, request. fold s'. rewrite Hn.
      cbn [server resume emit db clients log repeat].
      unfold emit. cbn [db clients log].
      apply server_eta; [reflexivity | now symmetry |].
      rewrite Hl, <- app_assoc. reflexivity.
Qed.
End Schedules.

(* ================================================================== *)
(** * Access control *)

Lemma authMiddleware_next (secret : string) (now : Z) (req : Request) :
  authMiddleware secret now req = Next (with_user (authenticate secret now req) req).
Proof.
  unfold authenticate, authMiddleware.
  destruct (token req) as [tok|]; [|reflexivity].
  destruct (negb _); [reflexivity|].
  destruct (Jwt.verify _ _ _); reflexivity.
Qed.

Lemma authenticate_by_token (secret : string) (now : Z) (r1 r2 : Request) :
  token r1 = token r2 -> authenticate secret now r1 = authenticate secret now r2.
Proof.
  intros E. unfold authenticate, authMiddleware. rewrite E.
  destruct (token r2) as [tok|]; [|reflexivity].
  destruct (negb _); [reflexivity|].
  destruct (Jwt.verify _ _ _); reflexivity.
Qed.

(** On the routes of [app], a request without identity changes nothing
    and is sent to the login form, answered by the health probe, or
    matches no route. *)
Lemma app_anonymous (secret : string) (now : Z) (req : Request) (s : Server) :
  authenticate secret now req = None ->
  exists res,
    app secret now req s = (res, s) /\
    (res = Redirect (ToPath "/login") \/ res = NotFound \/
     (res = Send 200 "OK" /\ method req = GET /\ route req = RHealth)).
Proof.
  intros A. unfold app. rewrite authMiddleware_next, A.
  cbn [with_user method route].
  destruct (method req), (route req); unfold protected, requireAuth; cbn [user];
    eexists; (split; [reflexivity|]); auto.
Qed.

(** X1.  Over the whole route table of the third variant, a visitor whose
    cookie yields no identity never changes projects, tasks, registry or
    log, and changes the accounts only by registering; outside the
    public paths ([/health], [/register], [/login], [/logout]) the
    answer is the redirect to the login form, or 404 where method and
    path match no route. *)
Theorem anonymous_visit_is_harmless
    (secret : string) (now : Z) (fresh : ObjectId) (salt : N) (v : Visit) (st : Site) :
  visitor secret now v = None ->
  let '(ans, st') := site secret now fresh salt v st in
  core st' = core st /\
  (accounts st' = accounts st \/ (v_path v = PRegister /\ v_method v = POST)) /\
  (public (v_path v) = false -> sent_to_login ans \/ ans = Plain NotFound).
Proof.
  intros A. unfold site. rewrite A. unfold sent_to_login.
  destruct (v_path v) as [r| | | | | | |i] eqn:P.
  - assert (A' : authenticate secret now (as_request r v) = None).
    { rewrite <- A. unfold visitor. now apply authenticate_by_token. }
    destruct (app_anonymous secret now (as_request r v) (core st) A')
      as (res & E & [->|[->|(-> & _ & Hr)]]); rewrite E; cbn [core accounts];
      repeat split; auto.
    cbn [as_request route] in Hr. subst r. discriminate.
  - destruct (v_method v); cbn; repeat split; auto.
  - destruct (v_method v); [cbn; repeat split; auto; discriminate|].
    destruct (Auth.register _ _ _ _ _ _) as [a us]. cbn.
    repeat split; auto. discriminate.
  - destruct (v_method v); cbn; repeat split; auto; discriminate.
  - destruct (v_method v); cbn; repeat split; auto; discriminate.
  - destruct (v_method v); cbn; repeat split; auto.
  - destruct (v_method v); cbn; repeat split; auto.
  - destruct (v_method v); cbn; repeat split; auto.
Qed.

Lemma anonymous_visit_is_harmless_witness :
  let v := mkVisit POST (Core (RTaskToggle (Oid 2%N))) None
                   (mkBody None None None None) (mkForm None None None None) None in
  let '(ans, st') := site demo_secret 2000 8%N 1%N v (mkSite demo_server []) in
  core st' = demo_server /\
  (accounts st' = [] \/ (v_path v = PRegister /\ v_method v = POST)) /\
  (public (v_path v) = false -> sent_to_login ans \/ ans = Plain NotFound).
Proof.
  exact (@anonymous_visit_is_harmless demo_secret 2000 8%N 1%N
           (mkVisit POST (Core (RTaskToggle (Oid 2%N))) None
                    (mkBody None None None None) (mkForm None None None None) None)
           (mkSite demo_server []) eq_refl).
Defined.

(* ================================================================== *)
(** * What the mutations do to the store and to the statistics *)

Lemma length_Z_app {A} (l1 l2 : list A) :
  length_Z (l1 ++ l2) = (length_Z l1 + length_Z l2)%Z.
Proof. unfold length_Z. rewrite length_app. lia. Qed.

Lemma truthy_nonempty (v : option string) :
  truthy v = true -> string_of v <> EmptyString /\ v = Some (string_of v).
Proof.
  destruct v as [x|]; cbn; [|discriminate].
  destruct (String.eqb_spec x EmptyString); cbn; [discriminate|auto].
Qed.

(** X4.  A successful project creation appends exactly one project,
    titled with the posted [title] or else [name], never empty, with
    progress [0]; tasks and completion are as before and the snapshot
    counts one project more. *)
Theorem createProject_adds_one_project
    (now : Z) (req : Request) (s s' : Server) (loc : Location) :
  Checked.createProject now req s = (Redirect loc, s') ->
  exists p,
    projects (db s') = projects (db s) ++ [p] /\
    Some (p_title p) = or_else (b_title (body req)) (b_name (body req)) /\
    p_title p <> EmptyString /\
    p_description p = b_description (body req) /\
    p_progress p = Some 0%Q /\
    tasks (db s') = tasks (db s) /\
    totalProjects (computeStats (db s')) = (totalProjects (computeStats (db s)) + 1)%Z /\
    totalTasks (computeStats (db s')) = totalTasks (computeStats (db s)) /\
    overallCompletion (computeStats (db s')) = overallCompletion (computeStats (db s)).
Proof.
  unfold Checked.createProject.
  destruct (truthy (or_else _ _)) eqn:T; cbn [negb]; [|discriminate].
  cbn. intros E. inversion E; subst; clear E. cbn.
  destruct (truthy_nonempty _ T) as [Hne Hs].
  eexists. split; [reflexivity|]. cbn. repeat split; auto.
  rewrite length_Z_app. reflexivity.
Qed.

Lemma createProject_adds_one_project_witness :
  exists p,
    projects (db (snd (Checked.createProject 2000
                         (demo_request POST RProjects (Some "B"%string)) demo_server)))
    = projects (db demo_server) ++ [p] /\ p_title p = "B"%string.
Proof.
  destruct (@createProject_adds_one_project 2000
              (demo_request POST RProjects (Some "B"%string)) demo_server _ _ eq_refl)
    as (p & H1 & H2 & _).
  exists p. split; [exact H1|]. inversion H2. reflexivity.
Defined.

(** X5.  A successful task creation appends exactly one open task that
    points to the project found under the route parameter; projects are
    as before, the snapshot counts one task more, the project's page
    gains the task and every other project's page is unchanged. *)
Theorem createTask_adds_one_open_task
    (now : Z) (pid : ObjectId) (req : Request) (s s' : Server) (loc : Location) :
  Checked.createTask now (Oid pid) req s = (Redirect loc, s') ->
  exists project t,
    Store.findProject pid (db s) = Some project /\
    tasks (db s') = tasks (db s) ++ [t] /\
    t_completed t = false /\
    t_projectId t = Some (p_id project) /\
    Some (t_title t) = b_title (body req) /\
    projects (db s') = projects (db s) /\
    totalTasks (computeStats (db s')) = (totalTasks (computeStats (db s)) + 1)%Z /\
    completedTasks (db s') = completedTasks (db s) /\
    Pages.tasksOf (p_id project) (db s') = Pages.tasksOf (p_id project) (db s) ++ [t] /\
    (forall other, other <> p_id project ->
       Pages.tasksOf other (db s') = Pages.tasksOf other (db s)).
Proof.
  unfold Checked.createTask.
  destruct (truthy (b_title (body req))) eqn:T; cbn [negb]; [|discriminate].
  destruct (Store.findProject pid (db s)) as [project|] eqn:F; [|discriminate].
  cbn. intros E. inversion E; subst; clear E. cbn.
  destruct (truthy_nonempty _ T) as [_ Hs].
  exists project. eexists. split; [reflexivity|]. split; [reflexivity|]. cbn.
  repeat split; auto.
  - rewrite length_Z_app. reflexivity.
  - unfold completedTasks. cbn. rewrite filter_app. cbn. now rewrite app_nil_r.
  - unfold Pages.tasksOf. cbn. rewrite filter_app. cbn. now rewrite N.eqb_refl.
  - intros other Ho. unfold Pages.tasksOf. cbn. rewrite filter_app. cbn.
    destruct (N.eqb_spec (p_id project) other); [congruence|]. apply app_nil_r.
Qed.

Lemma createTask_adds_one_open_task_witness :
  let s' := snd (Checked.createTask 2000 (Oid 1%N)
                   (demo_request POST (RProjectTasks (Oid 1%N)) (Some "t2"%string))
                   demo_server) in
  exists t, tasks (db s') = tasks (db demo_server) ++ [t] /\ t_completed t = false.
Proof.
  intros s'.
  destruct (@createTask_adds_one_open_task 2000 1%N
              (demo_request POST (RProjectTasks (Oid 1%N)) (Some "t2"%string))
              demo_server s' _ eq_refl) as (p & t & _ & H1 & H2 & _).
  exists t. split; assumption.
Defined.

Lemma replaceTask_first (t t' : TaskDoc) (l : list TaskDoc) :
  find (fun x => N.eqb (t_id x) (t_id t')) l = Some t ->
  exists l1 l2, l = l1 ++ t :: l2 /\ Store.replaceTask t' l = l1 ++ t' :: l2.
Proof.
  induction l as [|x r IH]; cbn [find Store.replaceTask]; [discriminate|].
  destruct (N.eqb (t_id x) (t_id t')) eqn:E.
  - intros H. inversion H; subst. exists [], r. auto.
  - intros H. destruct (IH H) as (l1 & l2 & -> & ->).
    exists (x :: l1), l2. auto.
Qed.

(** X6.  Toggling an existing task keeps the number of projects and of
    tasks and moves the number of completed tasks by exactly one: up
    when the task was open, down when it was completed. *)
Theorem toggle_moves_completed_by_one
    (variant : bool) (now : Z) (tid : ObjectId) (req : Request) (s : Server) (t : TaskDoc) :
  let toggle := if variant then Checked.toggleTask else Unchecked.toggleTask in
  let s' := snd (toggle now (Oid tid) req s) in
  Store.findTask tid (db s) = Some t ->
  totalProjects (computeStats (db s')) = totalProjects (computeStats (db s)) /\
  totalTasks (computeStats (db s')) = totalTasks (computeStats (db s)) /\
  completedTasks (db s') =
    (completedTasks (db s) + (if t_completed t then - 1 else 1))%Z.
Proof.
  intros toggle s' H.
  assert (E : db s' = Store.saveTask (toggled now t) (db s)).
  { unfold s', toggle. destruct variant; now apply toggleTask_store. }
  pose proof (findTask_id _ _ H) as Hid.
  assert (F : find (fun x => N.eqb (t_id x) (t_id (toggled now t))) (tasks (db s)) = Some t).
  { cbn [toggled t_id]. rewrite Hid. exact H. }
  destruct (replaceTask_first _ _ F) as (l1 & l2 & Hl & Hr).
  rewrite E. unfold completedTasks, computeStats, statsOf, Store.saveTask.
  cbn [projects tasks totalProjects totalTasks]. rewrite Hr, Hl.
  repeat split.
  - rewrite !length_Z_app. unfold length_Z. cbn [List.length]. reflexivity.
  - rewrite !filter_app, !length_Z_app. cbn [filter toggled t_completed].
    destruct (t_completed t); cbn [negb]; unfold length_Z; cbn [List.length]; lia.
Qed.

Lemma toggle_moves_completed_by_one_witness :
  let s' := snd (Checked.toggleTask 2000 (Oid 2%N)
                   (demo_request POST (RTaskToggle (Oid 2%N)) None) demo_server) in
  completedTasks (db s') = (completedTasks (db demo_server) + 1)%Z.
Proof.
  intros s'.
  exact (proj2 (proj2 (@toggle_moves_completed_by_one true 2000 2%N
           (demo_request POST (RTaskToggle (Oid 2%N)) None) demo_server
           demo_open_task eq_refl))).
Defined.

(** X7.  The completion percentage stays in range: for a store of fewer
    than [2^32] tasks [overallCompletion] lies between [0] and [100]; it
    is [100] when every task is completed and there is at least one, and
    [0] when none is. *)
Theorem overallCompletion_in_range (d : Db) :
  (length_Z (tasks d) < 2 ^ 32)%Z ->
  (0 <= overallCompletion (computeStats d) <= 100)%Z /\
  ((0 < length_Z (tasks d))%Z -> completedTasks d = length_Z (tasks d) ->
     overallCompletion (computeStats d) = 100%Z) /\
  (completedTasks d = 0%Z -> overallCompletion (computeStats d) = 0%Z).
Proof.
  intros Hlen.
  pose proof (completed_le_total d) as Hc.
  assert (N : (0 < length_Z (tasks d))%Z ->
              (- length_Z (tasks d)
               <= 2 * length_Z (tasks d) * overallCompletion (computeStats d)
                  - 200 * completedTasks d <= length_Z (tasks d))%Z).
  { intros Hpos. unfold computeStats, statsOf. cbn [overallCompletion].
    destruct (Z.eqb_spec (length_Z (tasks d)) 0) as [E|_]; [lia|].
    apply JsNumberFacts.Math_round_percent_nearest; [exact Hc|lia]. }
  assert (Z0 : length_Z (tasks d) = 0%Z -> overallCompletion (computeStats d) = 0%Z).
  { intros E. unfold computeStats, statsOf. cbn [overallCompletion]. now rewrite E. }
  pose proof (length_Z_nonneg (tasks d)) as Hnn.
  destruct (Z.eq_dec (length_Z (tasks d)) 0) as [E|E].
  - rewrite (Z0 E). repeat split; try lia.
  - specialize (N ltac:(lia)). repeat split; intros; nia.
Qed.

Lemma overallCompletion_in_range_witness :
  (0 <= overallCompletion (computeStats (demo_db 23 17)) <= 100)%Z.
Proof.
  apply (@overallCompletion_in_range (demo_db 23 17)). vm_compute. reflexivity.
Defined.

(* ================================================================== *)
(** * Consistency of the store *)

Lemma findProject_app (pid : ObjectId) (d : Db) (p q : ProjectDoc) (ts : list TaskDoc) (n : ObjectId) :
  Store.findProject pid d = Some p ->
  Store.findProject pid (mkDb (projects d ++ [q]) ts n) = Some p.
Proof.
  unfold Store.findProject. cbn [projects].
  induction (projects d) as [|x r IH]; simpl; [discriminate|].
  destruct (N.eqb (p_id x) pid); [trivial|exact IH].
Qed.

Lemma anchored_same_projects (d d' : Db) (t t' : TaskDoc) :
  projects d' = projects d -> t_projectId t' = t_projectId t ->
  anchored d t -> anchored d' t'.
Proof.
  intros Hp Ht (pid & p & H1 & H2). exists pid, p. split; [congruence|].
  unfold Store.findProject in *. now rewrite Hp.
Qed.

Lemma replaceTask_Forall (P : TaskDoc -> Prop) (t : TaskDoc) (l : list TaskDoc) :
  P t -> Forall P l -> Forall P (Store.replaceTask t l).
Proof.
  intros Ht. induction 1 as [|x r Hx Hr IH]; cbn [Store.replaceTask]; [constructor|].
  destruct (N.eqb (t_id x) (t_id t)); constructor; auto.
Qed.

Lemma insertProject_consistent (now : Z) (title : string) (descr : option string)
    (pr : option Q) (d : Db) :
  title <> EmptyString -> consistent d ->
  consistent (snd (Store.insertProject now title descr pr d)).
Proof.
  intros Ht [Hp Ha]. split; cbn [Store.insertProject snd projects tasks].
  - apply Forall_app. split; [exact Hp|]. repeat constructor. exact Ht.
  - eapply Forall_impl; [|exact Ha]. intros t (pid & p & H1 & H2).
    exists pid, p. split; [exact H1|]. now apply findProject_app.
Qed.

Lemma run_consistent (m : Mutation) (now : Z) (req : Request) (s : Server) :
  consistent (db s) -> consistent (db (snd (run m now req s))).
Proof.
  intros C. destruct m as [|i|i]; cbn [run].
  - unfold Checked.createProject.
    destruct (truthy (or_else _ _)) eqn:T; cbn [negb snd]; [|exact C].
    apply (insertProject_consistent now _ _ (proj1 (truthy_nonempty _ T)) C).
  - unfold Checked.createTask.
    destruct (truthy (b_title (body req))) eqn:T; cbn [negb snd]; [|exact C].
    destruct i as [pid|raw]; [|exact C].
    destruct (Store.findProject pid (db s)) as [project|] eqn:F; [|exact C].
    destruct C as [Hp Ha]. cbn. split; cbn [projects tasks]; [exact Hp|].
    pose proof F as Fid. unfold Store.findProject in Fid.
    apply find_some in Fid. destruct Fid as [_ Fid]. apply N.eqb_eq in Fid.
    apply Forall_app. split.
    + eapply Forall_impl; [|exact Ha]. intros t. now apply anchored_same_projects.
    + repeat constructor. exists pid, project. cbn. split; [congruence|exact F].
  - unfold Checked.toggleTask.
    destruct i as [tid|raw]; [|exact C].
    destruct (Store.findTask tid (db s)) as [t|] eqn:F; [|exact C].
    destruct C as [Hp Ha]. cbn. split; cbn [projects tasks]; [exact Hp|].
    assert (At : anchored (db s) t).
    { rewrite Forall_forall in Ha. apply Ha.
      unfold Store.findTask in F. now apply find_some in F. }
    apply replaceTask_Forall.
    + revert At. now apply anchored_same_projects.
    + eapply Forall_impl; [|exact Ha]. intros x. now apply anchored_same_projects.
Qed.

(** X8.  Every request keeps the store consistent: if every project has
    a title and every task points to a stored project before the
    request, the same holds after it, whichever route it takes. *)
Theorem app_keeps_store_consistent
    (secret : string) (now : Z) (req : Request) (s : Server) :
  consistent (db s) -> consistent (db (snd (app secret now req s))).
Proof.
  intros C. unfold app. rewrite authMiddleware_next.
  set (req1 := with_user _ req).
  destruct (method req1), (route req1); cbn [snd]; trivial;
    unfold protected; destruct (requireAuth req1) as [rq|r]; cbn [snd]; trivial.
  - apply (run_consistent CreateProject now rq s C).
  - apply (run_consistent (CreateTask i) now rq s C).
  - apply (run_consistent (ToggleTask i) now rq s C).
  - unfold Api.createProject.
    destruct (truthy (b_title (body rq))) eqn:T; cbn [negb snd]; [|exact C].
    apply (insertProject_consistent now _ _ (proj1 (truthy_nonempty _ T)) C).
Qed.

Lemma demo_server_consistent : consistent (db demo_server).
Proof.
  split; cbn.
  - repeat constructor. discriminate.
  - repeat constructor. exists 1%N, demo_project. split; reflexivity.
Qed.

Lemma app_keeps_store_consistent_witness :
  consistent (db (snd (app demo_secret 2000
                         (demo_request POST (RProjectTasks (Oid 1%N)) (Some "t2"%string))
                         demo_server))).
Proof.
  apply (@app_keeps_store_consistent demo_secret 2000 _ demo_server).
  exact demo_server_consistent.
Defined.

(** X9.  On a consistent store the task list shows, for every task in
    store order, its own title and completion and the title of the
    project it belongs to; the fallback ["Unknown"] is only ever the
    result of a missing or untitled project. *)
Theorem listTasks_shows_project_titles (req : Request) (s : Server) :
  user req <> None -> consistent (db s) ->
  exists rows,
    Pages.listTasks req s = TaskList rows /\
    Forall2 (fun t r =>
               r_id r = t_id t /\ r_title r = t_title t /\
               r_completed r = t_completed t /\
               exists pid p, t_projectId t = Some pid /\
                             Store.findProject pid (db s) = Some p /\
                             r_projectTitle r = p_title p)
            (tasks (db s)) rows.
Proof.
  intros U [Hp Ha]. unfold Pages.listTasks, requireAuth.
  destruct (user req) as [u|]; [|now elim U].
  eexists. split; [reflexivity|].
  induction Ha as [|t r Ht _ IH]; cbn [map]; constructor; trivial.
  cbn. repeat split.
  destruct Ht as (pid & p & H1 & H2). exists pid, p. repeat split; trivial.
  unfold Pages.projectTitle, Pages.populate. rewrite H1, H2. cbn [option_map].
  assert (T : titled p).
  { rewrite Forall_forall in Hp. apply Hp.
    unfold Store.findProject in H2. now apply find_some in H2. }
  unfold or_else, truthy. destruct (String.eqb_spec (p_title p) EmptyString); [contradiction|].
  reflexivity.
Qed.

Lemma listTasks_shows_project_titles_witness :
  exists rows,
    Pages.listTasks (with_user (Some (Jwt.mkPayload 7%N None None 0 10)) (request_with None))
                    demo_server = TaskList rows /\
    List.length rows = 1%nat.
Proof.
  destruct (@listTasks_shows_project_titles
              (with_user (Some (Jwt.mkPayload 7%N None None 0 10)) (request_with None))
              demo_server ltac:(discriminate) demo_server_consistent)
    as (rows & H & F).
  exists rows. split; [exact H|].
  apply Forall2_length in F. cbn in F. congruence.
Defined.

(** X10.  The unchecked task route does not look the project up: with a
    title and any well-formed id it stores the task and broadcasts, and
    when no project has that id the stored task is an orphan, which the
    task list shows under ["Unknown"]; the store is no longer
    consistent. *)
Theorem unchecked_createTask_orphans
    (now : Z) (pid : ObjectId) (req : Request) (s : Server) :
  truthy (b_title (body req)) = true ->
  Store.findProject pid (db s) = None ->
  exists t s',
    Unchecked.createTask now (Oid pid) req s = (Redirect (ToProject (Oid pid)), s') /\
    tasks (db s') = tasks (db s) ++ [t] /\
    t_projectId t = Some pid /\
    broadcasts (log s') = S (broadcasts (log s)) /\
    Pages.projectTitle (db s') t = "Unknown"%string /\
    ~ consistent (db s').
Proof.
  intros T F. unfold Unchecked.createTask. rewrite T. cbn [negb].
  set (t := mkTask (nextId (db s)) (string_of (b_title (body req))) false (Some pid) now now).
  set (d' := mkDb (projects (db s)) (tasks (db s) ++ [t]) (N.succ (nextId (db s)))).
  exists t, (broadcastStats (with_db d' s)).
  assert (F' : Store.findProject pid d' = None) by exact F.
  split; [reflexivity|]. split; [reflexivity|]. split; [reflexivity|].
  split; [exact (broadcastStats_once (with_db d' s))|].
  change (db (broadcastStats (with_db d' s))) with d'. split.
  - unfold Pages.projectTitle, Pages.populate. cbn [t t_projectId].
    rewrite F'. reflexivity.
  - intros [_ Ha]. cbn [d' tasks] in Ha. apply Forall_app in Ha.
    destruct Ha as [_ Ha]. inversion Ha as [|x l (q & p & H1 & H2) _]; subst.
    cbn in H1. inversion H1; subst. fold d' in H2. rewrite F' in H2. discriminate.
Qed.

Lemma unchecked_createTask_orphans_witness :
  exists t s',
    Unchecked.createTask 2000 (Oid 9%N)
      (demo_request POST (RProjectTasks (Oid 9%N)) (Some "t2"%string)) demo_server
    = (Redirect (ToProject (Oid 9%N)), s') /\
    tasks (db s') = tasks (db demo_server) ++ [t] /\
    t_projectId t = Some 9%N.
Proof.
  destruct (@unchecked_createTask_orphans 2000 9%N
              (demo_request POST (RProjectTasks (Oid 9%N)) (Some "t2"%string))
              demo_server eq_refl eq_refl) as (t & s' & H1 & H2 & H3 & _).
  exists t, s'. repeat split; assumption.
Defined.

(* ================================================================== *)
(** * The two project-creation routes *)

(** X11.  The form route and the JSON route disagree on what a project
    may be called: a body with a [name] and no usable [title] creates
    the project through [POST /projects], titled by the name, and is
    refused by [POST /api/projects], uncaught and without storing
    anything. *)
Theorem name_only_body_splits_the_routes (now : Z) (req : Request) (s : Server) :
  truthy (b_title (body req)) = false ->
  truthy (b_name (body req)) = true ->
  (exists p s',
     Checked.createProject now req s = (Redirect (ToPath "/projects"), s') /\
     projects (db s') = projects (db s) ++ [p] /\
     Some (p_title p) = b_name (body req)) /\
  Api.createProject now req s = (Unhandled "ValidationError", s).
Proof.
  intros T N. split.
  - unfold Checked.createProject, or_else. rewrite T, N. cbn [negb].
    destruct (truthy_nonempty _ N) as [_ Hs].
    cbn. eexists. eexists. split; [reflexivity|]. split; [reflexivity|].
    cbn. now symmetry.
  - unfold Api.createProject. now rewrite T.
Qed.

Lemma name_only_body_splits_the_routes_witness :
  Api.createProject 2000
    (mkRequest POST RApiProjects None (mkBody None (Some "B"%string) None None) None None)
    demo_server = (Unhandled "ValidationError", demo_server).
Proof.
  exact (proj2 (@name_only_body_splits_the_routes 2000
           (mkRequest POST RApiProjects None (mkBody None (Some "B"%string) None None) None None)
           demo_server eq_refl eq_refl)).
Defined.

(** X12.  A project created through the JSON route is what the next
    [GET /api/projects] returns last and what the next snapshot lists
    last, under the posted title; tasks, registry and log are as they
    were, so nothing is sent to any connection. *)
Theorem api_created_project_is_listed
    (now : Z) (req : Request) (s s' : Server) (p : ProjectDoc) :
  Api.createProject now req s = (JsonProject p, s') ->
  Api.listProjects s' = (JsonProjects (projects (db s) ++ [p]), s') /\
  summaries (computeStats (db s')) = summaries (computeStats (db s)) ++ [summarize p] /\
  Some (p_title p) = b_title (body req) /\
  tasks (db s') = tasks (db s) /\
  log s' = log s /\ clients s' = clients s.
Proof.
  unfold Api.createProject.
  destruct (truthy (b_title (body req))) eqn:T; cbn [negb]; [|discriminate].
  destruct (truthy_nonempty _ T) as [_ Hs].
  cbn. intros E. inversion E; subst; clear E. cbn.
  unfold Api.listProjects. cbn.
  repeat split; auto.
  unfold computeStats, statsOf. cbn. now rewrite map_app.
Qed.

Lemma api_created_project_is_listed_witness :
  let req := demo_request POST RApiProjects (Some "B"%string) in
  let p := fst (Store.insertProject 2000 "B" None (Some 0%Q) (db demo_server)) in
  Api.listProjects (snd (Api.createProject 2000 req demo_server))
  = (JsonProjects (projects (db demo_server) ++ [p]),
     snd (Api.createProject 2000 req demo_server)).
Proof.
  intros req p.
  exact (proj1 (@api_created_project_is_listed 2000 req demo_server _ p eq_refl)).
Defined.

(* ================================================================== *)
(** * Session gate: what an identity proves *)

(** X14.  [req.user] is only ever set from a cookie that carries a
    payload signed with the server's secret and not yet expired: the
    identity is that payload, and a request handed on to a protected
    handler always has one. *)
Theorem identity_means_signed_and_fresh
    (secret : string) (now : Z) (req : Request) (p : Jwt.Payload) :
  authenticate secret now req = Some p ->
  token req = Some (Jwt.Jws p (Jwt.HS256 secret p)) /\
  (seconds now < Jwt.exp p)%Z /\
  requireAuth (with_user (authenticate secret now req) req)
  = Next (with_user (Some p) req).
Proof.
  intros A. destruct (token req) as [tok|] eqn:T.
  - rewrite (authenticate_verify _ _ _ T) in A.
    apply verify_sound in A. destruct A as [-> L].
    repeat split; trivial.
    rewrite (authenticate_verify _ _ _ T), verify_signed by exact L. reflexivity.
  - unfold authenticate, authMiddleware in A. rewrite T in A. discriminate.
Qed.

Lemma identity_means_signed_and_fresh_witness :
  exists p,
    token (demo_request GET RProjects None)
    = Some (Jwt.Jws p (Jwt.HS256 demo_secret p)) /\
    (seconds 2000 < Jwt.exp p)%Z.
Proof.
  eexists.
  destruct (@identity_means_signed_and_fresh demo_secret 2000
              (demo_request GET RProjects None) _ eq_refl) as (H1 & H2 & _).
  split; [exact H1|exact H2].
Defined.

(* ================================================================== *)
(** * Registration and login *)

Module AuthFacts.
Import Accounts Auth.

Lemma same_value_eq (a b : option string) : same_value a b = true -> a = b.
Proof.
  destruct a as [x|], b as [y|]; cbn; try discriminate; trivial.
  intros H. apply String.eqb_eq in H. now subst.
Qed.

Lemma findOne_none_notin (e : string) (us : list Account) :
  findOne (Some e) us = None <-> ~ In e (emails us).
Proof.
  unfold findOne, emails. induction us as [|a r IH]; cbn [find map In].
  - tauto.
  - destruct (String.eqb_spec (u_email (who a)) e) as [E|N].
    + split; [discriminate|]. intros H. elim H. now left.
    + rewrite IH. tauto.
Qed.

Lemma findOne_app_found (e : option string) (us extra : list Account) (a : Account) :
  findOne e us = Some a -> findOne e (us ++ extra) = Some a.
Proof.
  destruct e as [e|]; [|discriminate]. unfold findOne.
  induction us as [|x r IH]; simpl; [discriminate|].
  destruct (String.eqb (u_email (who x)) e); [trivial|exact IH].
Qed.

Lemma findOne_app_fresh (e : string) (us : list Account) (a : Account) :
  findOne (Some e) us = None -> u_email (who a) = e ->
  findOne (Some e) (us ++ [a]) = Some a.
Proof.
  unfold findOne. intros H E.
  induction us as [|x r IH]; simpl in *.
  - rewrite E, String.eqb_refl. reflexivity.
  - destruct (String.eqb (u_email (who x)) e); [discriminate|auto].
Qed.

(** X15.  Registration either signs the visitor in and appends exactly
    one account, holding the posted name and email and a hash of the
    posted password, or shows the form again with status 400 and leaves
    the accounts as they were.  It succeeds exactly when name, email and
    password are present, the confirmation repeats the password, and no
    account has the email yet. *)
Theorem register_outcome
    (secret : string) (now : Z) (fresh : ObjectId) (salt : N)
    (form : Form) (us : list Account) :
  let accepted :=
    truthy (f_name form) && truthy (f_email form) && truthy (f_password form)
    && same_value (f_password form) (f_confirmPassword form)
    && match findOne (f_email form) us with Some _ => false | None => true end in
  (accepted = true ->
     exists user pw,
       f_name form = Some (u_name user) /\ f_email form = Some (u_email user) /\
       f_password form = Some pw /\ u_id user = fresh /\
       register secret now fresh salt form us =
         (LoggedIn (issueToken secret now user),
          us ++ [mkAccount user (Bcrypt salt pw)])) /\
  (accepted = false ->
     exists msg,
       register secret now fresh salt form us = (Shown (Render 400 "register" msg), us)).
Proof.
  cbn zeta. unfold register.
  destruct (truthy (f_name form)) eqn:Tn; cbn [negb andb orb];
    [|split; [discriminate|eauto]].
  destruct (truthy (f_email form)) eqn:Te; cbn [negb andb orb];
    [|split; [discriminate|eauto]].
  destruct (truthy (f_password form)) eqn:Tp; cbn [negb andb orb];
    [|split; [discriminate|eauto]].
  destruct (same_value _ _) eqn:Sv; cbn [negb andb];
    [|split; [discriminate|eauto]].
  destruct (findOne (f_email form) us) as [a|] eqn:Fo;
    [split; [discriminate|eauto]|].
  split; [|discriminate]. intros _.
  destruct (truthy_nonempty _ Tn) as [_ Hn].
  destruct (truthy_nonempty _ Te) as [_ He].
  destruct (truthy_nonempty _ Tp) as [_ Hp].
  eexists (mkUser fresh _ _), _. cbn [u_name u_email u_id].
  repeat split; eauto.
Qed.

Lemma register_outcome_witness :
  exists msg,
    register demo_secret 2000 8%N 1%N
      (mkForm (Some "Bob") (Some "bob@example.org") (Some "pw") (Some "other"))%string []
    = (Shown (Render 400 "register" msg), []).
Proof.
  apply (proj2 (@register_outcome demo_secret 2000 8%N 1%N
           (mkForm (Some "Bob") (Some "bob@example.org") (Some "pw") (Some "other"))%string [])).
  reflexivity.
Defined.

(** The two ways [register] ends. *)
Lemma register_cases
    (secret : string) (now : Z) (fresh : ObjectId) (salt : N)
    (form : Form) (us : list Account) :
  (exists msg,
     register secret now fresh salt form us = (Shown (Render 400 "register" msg), us))
  \/
  (exists name email pw,
     f_name form = Some name /\ f_email form = Some email /\
     f_password form = Some pw /\ f_confirmPassword form = Some pw /\
     findOne (Some email) us = None /\
     register secret now fresh salt form us =
       (LoggedIn (issueToken secret now (mkUser fresh name email)),
        us ++ [mkAccount (mkUser fresh name email) (Bcrypt salt pw)])).
Proof.
  unfold register.
  destruct (truthy (f_name form)) eqn:Tn; cbn [negb orb]; [|eauto].
  destruct (truthy (f_email form)) eqn:Te; cbn [negb orb]; [|eauto].
  destruct (truthy (f_password form)) eqn:Tp; cbn [negb orb]; [|eauto].
  destruct (same_value _ _) eqn:Sv; cbn [negb]; [|eauto].
  destruct (findOne (f_email form) us) as [a|] eqn:Fo; [eauto|].
  right.
  destruct (truthy_nonempty _ Tn) as [_ Hn].
  destruct (truthy_nonempty _ Te) as [_ He].
  destruct (truthy_nonempty _ Tp) as [_ Hp].
  apply same_value_eq in Sv.
  exists (string_of (f_name form)), (string_of (f_email form)),
         (string_of (f_password form)).
  repeat split; trivial; congruence.
Qed.

(** X16.  Registration keeps emails unique: if no two accounts share an
    email before, none do after, and every account that existed is still
    there, in place and unchanged. *)
Theorem register_keeps_emails_unique
    (secret : string) (now : Z) (fresh : ObjectId) (salt : N)
    (form : Form) (us : list Account) :
  NoDup (emails us) ->
  let us' := snd (register secret now fresh salt form us) in
  NoDup (emails us') /\ exists added, us' = us ++ added.
Proof.
  intros ND us'. unfold us'.
  destruct (register_cases secret now fresh salt form us)
    as [(msg & ->)|(name & email & pw & _ & _ & _ & _ & Fo & ->)]; cbn [snd].
  - split; [exact ND|]. exists []. now rewrite app_nil_r.
  - split; [|eauto].
    unfold emails. rewrite map_app. cbn [map who u_email].
    apply findOne_none_notin in Fo.
    apply NoDup_app; repeat split; trivial.
    + repeat constructor. intros [].
    + intros x Hx [<-|[]]. contradiction.
Qed.

Lemma register_keeps_emails_unique_witness :
  let bob := (mkForm (Some "Bob") (Some "bob@example.org") (Some "pw") (Some "pw"))%string in
  let eve := (mkForm (Some "Eve") (Some "eve@example.org") (Some "x") (Some "x"))%string in
  let us := snd (register demo_secret 2000 8%N 1%N bob []) in
  emails us = ["bob@example.org"%string] /\
  NoDup (emails (snd (register demo_secret 3000 9%N 2%N eve us))) /\
  NoDup (emails (snd (register demo_secret 3000 9%N 2%N bob us))).
Proof.
  intros bob eve us.
  assert (ND : NoDup (emails us)).
  { vm_compute. repeat constructor. intros []. }
  split; [reflexivity|]. split.
  - exact (proj1 (@register_keeps_emails_unique demo_secret 3000 9%N 2%N eve us ND)).
  - exact (proj1 (@register_keeps_emails_unique demo_secret 3000 9%N 2%N bob us ND)).
Defined.

(** X17.  Who registers can log in: after a successful registration, a
    login with the same email and password succeeds, for the same user;
    and both cookies, the one set by the registration and the one set by
    the login, yield that user's id, name and email until they expire. *)
Theorem register_then_login
    (secret : string) (now later : Z) (fresh : ObjectId) (salt : N)
    (form again : Form) (us us' : list Account) (cookie : Jwt.Token) :
  register secret now fresh salt form us = (LoggedIn cookie, us') ->
  f_email again = f_email form -> f_password again = f_password form ->
  exists user,
    u_id user = fresh /\
    Some (u_name user) = f_name form /\ Some (u_email user) = f_email form /\
    cookie = issueToken secret now user /\
    login secret later again us' = LoggedIn (issueToken secret later user) /\
    (forall t, (seconds t < seconds now + Jwt.seven_days)%Z ->
       exists p, identity_of secret t cookie = Some p /\ identity_equals user p) /\
    (forall t, (seconds t < seconds later + Jwt.seven_days)%Z ->
       exists p, identity_of secret t (issueToken secret later user) = Some p /\
                 identity_equals user p).
Proof.
  intros R Ee Ep.
  destruct (register_cases secret now fresh salt form us)
    as [(msg & H)|(name & email & pw & Hn & He & Hp & _ & Fo & H)];
    rewrite H in R; inversion R; subst; clear R.
  exists (mkUser fresh name email). cbn [u_id u_name u_email].
  assert (V : forall issued t, (seconds t < seconds issued + Jwt.seven_days)%Z ->
            exists p, identity_of secret t (issueToken secret issued (mkUser fresh name email))
                      = Some p /\ identity_equals (mkUser fresh name email) p).
  { intros issued t Ht. unfold identity_of.
    rewrite (@authenticate_verify secret t (request_with (Some _)) _ eq_refl).
    unfold issueToken, Jwt.sign. rewrite verify_signed by (cbn [Jwt.exp]; lia).
    eexists. split; [reflexivity|]. repeat split. }
  repeat split; auto.
  unfold login. rewrite Ee, He.
  rewrite (@findOne_app_fresh email us (mkAccount (mkUser fresh name email) (Bcrypt salt pw)) Fo eq_refl).
  rewrite Ep, Hp. cbn [passwordHash compare who]. now rewrite String.eqb_refl.
Qed.

Lemma register_then_login_witness :
  let form := (mkForm (Some "Bob") (Some "bob@example.org") (Some "pw") (Some "pw"))%string in
  let us' := snd (register demo_secret 2000 8%N 1%N form []) in
  exists user,
    u_id user = 8%N /\
    login demo_secret 5000 form us' = LoggedIn (issueToken demo_secret 5000 user).
Proof.
  intros form us'.
  destruct (@register_then_login demo_secret 2000 5000 8%N 1%N form form [] us' _
              eq_refl eq_refl eq_refl) as (user & H1 & _ & _ & _ & H5 & _).
  exists user. split; assumption.
Defined.

(** X18.  Login has one answer for every failure with a password: an
    unknown email and a wrong password both show the login form with
    status 400 and the same message, and no cookie is set; it succeeds
    exactly when the first account under that email was registered with
    that password. *)
Theorem login_outcome
    (secret : string) (now : Z) (form : Form) (us : list Account) (pw : string) :
  f_password form = Some pw ->
  let matching :=
    match findOne (f_email form) us with
    | Some a => compare pw (passwordHash a)
    | None => false
    end in
  (matching = true ->
     exists a, findOne (f_email form) us = Some a /\
               login secret now form us = LoggedIn (issueToken secret now (who a))) /\
  (matching = false ->
     login secret now form us = Shown (Render 400 "login" "Invalid email or password.")).
Proof.
  intros P. cbn zeta. unfold login. rewrite P.
  destruct (findOne (f_email form) us) as [a|]; [|split; [discriminate|trivial]].
  destruct (compare pw (passwordHash a)); split; try discriminate; eauto.
Qed.

Lemma login_outcome_witness :
  login demo_secret 2000 (mkForm None (Some "nobody@example.org") (Some "pw") None)%string []
  = Shown (Render 400 "login" "Invalid email or password.").
Proof.
  apply (proj2 (@login_outcome demo_secret 2000
           (mkForm None (Some "nobody@example.org") (Some "pw") None)%string [] "pw" eq_refl)).
  reflexivity.
Defined.

(** X19.  Registration never disturbs anyone who can already log in: for
    every login form whose email has an account, the answer is the same
    after any registration attempt as before it. *)
Theorem register_preserves_logins
    (secret : string) (now later : Z) (fresh : ObjectId) (salt : N)
    (form attempt : Form) (us : list Account) :
  findOne (f_email attempt) us <> None ->
  login secret later attempt (snd (register secret now fresh salt form us))
  = login secret later attempt us.
Proof.
  intros F.
  destruct (register_cases secret now fresh salt form us)
    as [(msg & ->)|(name & email & pw & _ & _ & _ & _ & _ & ->)]; cbn [snd]; trivial.
  unfold login.
  destruct (findOne (f_email attempt) us) as [a|] eqn:Fa; [|now elim F].
  now rewrite (findOne_app_found _ _ _ Fa).
Qed.

Lemma register_preserves_logins_witness :
  let bob := (mkForm (Some "Bob") (Some "bob@example.org") (Some "pw") (Some "pw"))%string in
  let eve := (mkForm (Some "Eve") (Some "eve@example.org") (Some "x") (Some "x"))%string in
  let us := snd (register demo_secret 2000 8%N 1%N bob []) in
  login demo_secret 5000 bob (snd (register demo_secret 3000 9%N 2%N eve us))
  = login demo_secret 5000 bob us.
Proof.
  intros bob eve us.
  apply (@register_preserves_logins demo_secret 3000 5000 9%N 2%N eve bob us).
  vm_compute. discriminate.
Defined.
End AuthFacts.

(* ================================================================== *)
(** * The live channel on the event loop *)

Module ChannelFacts.
Import EventLoop Handshaking HandshakeFacts.

Lemma conforming_mono (n n' : nat) (e : Event) :
  (n <= n')%nat -> conforming n e -> conforming n' e.
Proof.
  intros L. destruct e as [|o c m]; cbn; trivial. intros [H1 H2]. split; [lia|exact H2].
Qed.

Lemma fanout_conforming (n : nat) (st : StatsSnapshot) (cs : list Client) :
  Forall (fun x => (cid x < n)%nat) cs ->
  Forall (conforming n) (fanout (stats_message st) cs).
Proof.
  intros H. unfold fanout. apply Forall_map.
  apply Forall_forall. intros x Hx. apply filter_In in Hx. destruct Hx as [Hx _].
  rewrite Forall_forall in H. cbn. split; [now apply H|]. right. eauto.
Qed.

(** X20.  Whatever the schedule, the server only ever speaks the live
    channel protocol: every message it sends goes to a connection it has
    accepted and is either the greeting, sent by that connection's
    handler, or a ["stats"] message. *)
Theorem channel_speaks_protocol (w : World) :
  reachable w -> Forall (conforming (nextCid w)) (log (server w)).
Proof.
  induction 1 as [|w w' R IH S]; [constructor|].
  pose proof (reachable_invariant R) as [Hc Hf _].
  destruct S; cbn [accept request server nextCid log].
  - apply Forall_app. split.
    + eapply Forall_impl; [|exact IH]. intros e. apply conforming_mono. lia.
    + constructor; [|constructor]. cbn. split; [lia|left; auto].
  - apply Forall_app. split; [exact IH|].
    apply Forall_forall. intros e He. apply repeat_spec in He. subst. exact I.
  - exact IH.
  - destruct j as [c0|]; cbn [resume emit log]; apply Forall_app; (split; [exact IH|]).
    + constructor; [|constructor]. cbn. split; [|right; eauto].
      destruct (Nat.lt_ge_cases c0 (nextCid w)) as [|Hge]; trivial.
      destruct (Hf c0 Hge) as [_ Ha]. rewrite H, awaiting_split, awaiting_one_same in Ha. lia.
    + now apply fanout_conforming.
  - exact IH.
  - exact IH.
Qed.

Lemma channel_speaks_protocol_witness :
  Forall (conforming (nextCid race6)) (log (server race6)).
Proof.
  apply (@channel_speaks_protocol race6). exact HandshakeTheorems.race_reachable.
Defined.

Lemma fanned_out_app c l1 l2 :
  fanned_out c (l1 ++ l2) = fanned_out c l1 ++ fanned_out c l2.
Proof. unfold fanned_out. now rewrite inbox_app, flat_map_app. Qed.

Lemma step_gone (w w' : World) (c : nat) :
  step w w' -> gone w c ->
  gone w' c /\ fanned_out c (log (server w')) = fanned_out c (log (server w)).
Proof.
  intros S [Hlt Hnot]. unfold gone.
  destruct S; cbn [accept request server nextCid clients log].
  - split.
    + split; [lia|]. rewrite map_app, in_app_iff. cbn. intros [H|[H|[]]]; [tauto|lia].
    + rewrite fanned_out_app. unfold fanned_out at 2.
      rewrite inbox_send_other by lia. apply app_nil_r.
  - split; [split; assumption|].
    rewrite fanned_out_app. unfold fanned_out at 2.
    rewrite inbox_broadcasts. apply app_nil_r.
  - split; [split; assumption|reflexivity].
  - destruct j as [c0|]; cbn [resume emit log clients].
    + split; [split; assumption|].
      rewrite fanned_out_app. unfold fanned_out at 2.
      destruct (Nat.eq_dec c0 c) as [->|N].
      * rewrite inbox_send_same. apply app_nil_r.
      * rewrite inbox_send_other by exact N. apply app_nil_r.
    + split; [split; assumption|].
      rewrite fanned_out_app. unfold fanned_out at 2.
      rewrite inbox_fanout_stranger; [apply app_nil_r|].
      apply Forall_forall. intros x Hx E. apply Hnot. apply in_map_iff. eauto.
  - split; [|reflexivity]. split; [exact Hlt|].
    unfold set_state. rewrite map_map. intros H. apply in_map_iff in H.
    destruct H as (x & Hx & Hin). apply Hnot. apply in_map_iff.
    destruct (Nat.eqb_spec (cid x) c0); cbn [cid] in Hx; exists x; split; trivial; congruence.
  - split; [|reflexivity]. split; [exact Hlt|].
    unfold drop_client. intros H. apply in_map_iff in H.
    destruct H as (x & Hx & Hin). apply filter_In in Hin.
    apply Hnot. apply in_map_iff. exists x. tauto.
Qed.

(** X21.  A connection that has left the registry is never sent another
    broadcast: on every schedule that follows, including the fan-outs of
    broadcasts that were already under way, the messages fanned out to
    it are the ones it had. *)
Theorem gone_connection_gets_no_broadcast (w w' : World) (c : nat) :
  steps w w' -> gone w c ->
  gone w' c /\ fanned_out c (log (server w')) = fanned_out c (log (server w)).
Proof.
  induction 1 as [w|w w1 w2 S _ IH]; intros G; [auto|].
  destruct (step_gone S G) as [G1 E1].
  destruct (IH G1) as [G2 E2]. split; [exact G2|congruence].
Qed.

Lemma gone_connection_gets_no_broadcast_witness :
  let w := mkWorld (mkServer (db (server race1)) (drop_client 0 (clients (server race1)))
                             (log (server race1)))
                   (pending race1) (nextCid race1) in
  let w' := request "dev-secret-key-change-me" 2000 race_request w in
  fanned_out 0 (log (server w')) = fanned_out 0 (log (server w)).
Proof.
  intros w w'.
  refine (proj2 (@gone_connection_gets_no_broadcast w w' 0%nat _ _)).
  - apply steps_more with (w1 := w'); [constructor|constructor].
  - split; [vm_compute; lia|]. vm_compute. tauto.
Defined.

(** X22.  Run to completion is one schedule of the loop: on an idle
    event loop, a request, the store's answer and the fan-out, taken one
    after the other, leave exactly the server state the handler computes
    in one go, with nothing left suspended. *)
Theorem idle_loop_runs_handler_to_completion
    (secret : string) (now : Z) (req : Request) (w : World) :
  pending w = [] ->
  exists w', steps w w' /\
             server w' = snd (app secret now req (server w)) /\
             pending w' = [] /\ nextCid w' = nextCid w.
Proof. apply Schedules.request_runs_to_completion. Qed.

Lemma idle_loop_runs_handler_to_completion_witness :
  exists w', steps initial w' /\
             server w' = snd (app "dev-secret-key-change-me" 2000 race_request
                                  (server initial)) /\
             pending w' = [] /\ nextCid w' = nextCid initial.
Proof.
  apply (@idle_loop_runs_handler_to_completion
           "dev-secret-key-change-me" 2000 race_request initial).
  reflexivity.
Defined.
End ChannelFacts.

(* ================================================================== *)
(** * Project page and unchecked failures *)

(** X23.  The project page of an existing project shows that project's
    summary and exactly the stored tasks that point to it, in store
    order; a parameter that is no id ends in the error page (500) and an
    id without project in the 404 page. *)
Theorem projectDetail_shows_own_tasks (req : Request) (s : Server) :
  user req <> None ->
  (forall pid p, Store.findProject pid (db s) = Some p ->
     exists ts,
       Pages.projectDetail (Oid pid) req s = ProjectDetail (summarize p) ts /\
       id (summarize p) = pid /\
       (forall t, In t ts <-> In t (tasks (db s)) /\ t_projectId t = Some pid)) /\
  (forall pid, Store.findProject pid (db s) = None ->
     Pages.projectDetail (Oid pid) req s = Other (Render 404 "error" "Project not found")) /\
  (forall raw,
     Pages.projectDetail (NotAnId raw) req s = Other (Render 500 "error" "CastError")).
Proof.
  intros U. unfold Pages.projectDetail, requireAuth.
  destruct (user req) as [u|]; [|now elim U].
  repeat split.
  - intros pid p F. rewrite F.
    assert (Hid : p_id p = pid).
    { unfold Store.findProject in F. apply find_some in F. now apply N.eqb_eq. }
    eexists. split; [reflexivity|]. split; [exact Hid|].
    intros t. unfold Pages.tasksOf. rewrite filter_In, Hid.
    destruct (t_projectId t) as [q|].
    + rewrite N.eqb_eq. split; intros [H1 H2]; split; congruence.
    + split; intros [H1 H2]; discriminate.
  - intros pid F. now rewrite F.
Qed.

Lemma projectDetail_shows_own_tasks_witness :
  exists ts,
    Pages.projectDetail (Oid 1%N)
      (with_user (Some (Jwt.mkPayload 7%N None None 0 10)) (request_with None))
      demo_server = ProjectDetail (summarize demo_project) ts /\
    In demo_open_task ts.
Proof.
  destruct (proj1 (@projectDetail_shows_own_tasks
              (with_user (Some (Jwt.mkPayload 7%N None None 0 10)) (request_with None))
              demo_server ltac:(discriminate)) 1%N demo_project eq_refl)
    as (ts & H1 & _ & H3).
  exists ts. split; [exact H1|]. apply H3. split; [left|]; reflexivity.
Defined.

(** X25.  In the unchecked variant a failing mutation is not answered:
    a missing title, a parameter that is no id, and a toggle of a task
    that does not exist each end in an uncaught rejection; the server
    state, store and log, is as it was. *)
Theorem unchecked_failures_are_uncaught (now : Z) (req : Request) (s : Server) :
  (truthy (or_else (b_title (body req)) (b_name (body req))) = false ->
     Unchecked.createProject now req s = (Unhandled "ValidationError", s)) /\
  (forall i, truthy (b_title (body req)) = false ->
     Unchecked.createTask now i req s = (Unhandled "ValidationError", s)) /\
  (forall raw,
     Unchecked.createTask now (NotAnId raw) req s = (Unhandled "ValidationError", s) /\
     Unchecked.toggleTask now (NotAnId raw) req s = (Unhandled "CastError", s)) /\
  (forall tid, Store.findTask tid (db s) = None ->
     Unchecked.toggleTask now (Oid tid) req s = (Unhandled "TypeError", s)).
Proof.
  repeat split.
  - intros T. unfold Unchecked.createProject. now rewrite T.
  - intros i T. unfold Unchecked.createTask. destruct i; [now rewrite T|reflexivity].
  - intros tid F. unfold Unchecked.toggleTask. now rewrite F.
Qed.

Lemma unchecked_failures_are_uncaught_witness :
  Unchecked.toggleTask 2000 (Oid 9%N)
    (demo_request POST (RTaskToggle (Oid 9%N)) None) demo_server
  = (Unhandled "TypeError", demo_server).
Proof.
  apply (proj2 (proj2 (proj2 (@unchecked_failures_are_uncaught 2000
           (demo_request POST (RTaskToggle (Oid 9%N)) None) demo_server)))).
  reflexivity.
Defined.
